(** * PageRank over a corpus of numbered pages: a shallow embedding

    This development embeds [pagerank_analysis.py] (the link extractor, the
    graph builder, the link statistics and the iterative PageRank
    computation) and proves the properties of its specification.

    Modelling conventions.
    - Page identifiers are Python [int]s: [Z].
    - [pages] is a Python [set] of ints: a [gset Z]; iterating over it
      visits [elements pages] (some fixed order without repetition).
    - [graph] is the [defaultdict(list)] returned by [build_graph]: a
      [gmap Z (list Z)] whose subscript yields [[]] on a missing key.
    - The rank dictionaries are insertion-ordered dictionaries keyed by the
      pages in iteration order: association lists [list (Z * Q)].
    - Arithmetic on ranks is exact rational arithmetic ([Q]); the rounding
      of double-precision floats is outside the model.
    - Python exceptions are the [Raise] outcomes of the [result] monad.
    - The [while] loop is a fuelled recursion; [None] stands for fuel that
      ran out, which [compute_pagerank_terminates] excludes.
    - Printing is not modelled. *)

From Stdlib Require Import ZArith QArith Qabs Lia Lqa List Ascii.
From stdpp Require Import gmap strings list fin_maps.

Local Open Scope Z_scope.

(** ** Exceptions *)

Inductive exn : Type :=
  | ZeroDivisionError
  | KeyError
  | ValueError
  | IndexError
  | StatisticsError.

Inductive result (A : Type) : Type :=
  | Ok (a : A)
  | Raise (e : exn).
Arguments Ok {A} a.
Arguments Raise {A} e.

#[global] Instance result_ret : MRet result := fun A a => Ok a.
#[global] Instance result_bind : MBind result :=
  fun A B f m => match m with Ok a => f a | Raise e => Raise e end.

Definition is_ok {A} (r : result A) : bool :=
  match r with Ok _ => true | Raise _ => false end.

(** Left-to-right monadic fold: a [for] loop updating one accumulator. *)
Fixpoint foldM {A B} (f : B -> A -> result B) (b : B) (l : list A) : result B :=
  match l with
  | [] => Ok b
  | x :: l' => b' ← f b x; foldM f b' l'
  end.

(** ** Numbers *)

(** [a / b] on Python numbers: raises on a zero divisor. *)
Definition py_div (a b : Q) : result Q :=
  if Qeq_bool b 0 then Raise ZeroDivisionError else Ok (a / b)%Q.

(** [sum(xs)]: starts from [0] and adds from left to right. *)
Definition py_sum (xs : list Q) : Q := fold_left Qplus xs 0%Q.

(** [a < b] as a test. *)
Definition Qlt_bool (a b : Q) : bool := negb (Qle_bool b a).

(** [len(xs)] as a number. *)
Definition py_len {A} (xs : list A) : Z := Z.of_nat (length xs).

(** ** Dictionaries *)

(** [graph[page]] on a [defaultdict(list)]: the empty list on a missing
    key (that the subscript also stores that empty list under the key is
    not observable through later subscripts). *)
Definition graph_get (graph : gmap Z (list Z)) (page : Z) : list Z :=
  default [] (graph !! page).

(** [incoming[target].append(page)] on a [defaultdict(list)]. *)
Definition dd_append (incoming : gmap Z (list Z)) (target page : Z)
  : gmap Z (list Z) :=
  <[target := graph_get incoming target ++ [page]]> incoming.

(** [pagerank[page]] on an insertion-ordered dictionary. *)
Fixpoint dict_get (d : list (Z * Q)) (k : Z) : result Q :=
  match d with
  | [] => Raise KeyError
  | (k', v) :: d' => if decide (k' = k) then Ok v else dict_get d' k
  end.

(** [d.values()] and [d.keys()]. *)
Definition dict_values (d : list (Z * Q)) : list Q := map snd d.
Definition dict_keys (d : list (Z * Q)) : list Z := map fst d.

(** ** compute_pagerank *)

Section PageRank.
Variable graph : gmap Z (list Z).
Variable pages : gset Z.
Variable damping tolerance : Q.
Variable max_iterations : Z.

(** [n = len(pages)] *)
Definition n_pages : Q := inject_Z (py_len (elements pages)).

(** [pagerank = {page: 1.0/n for page in pages}] *)
Definition initial_pagerank : result (list (Z * Q)) :=
  mapM (fun page => r ← py_div 1 n_pages; mret (page, r)) (elements pages).

(** The nested loops filling [incoming]. *)
Definition build_incoming : gmap Z (list Z) :=
  fold_left
    (fun incoming page =>
       fold_left (fun incoming target => dd_append incoming target page)
                 (graph_get graph page) incoming)
    (elements pages) ∅.

(** [dangling_nodes = [page for page in pages if len(graph[page]) == 0]] *)
Definition dangling_nodes : list Z :=
  List.filter (fun page => py_len (graph_get graph page) =? 0) (elements pages).

(** Body of [for incoming_page in incoming[page]]. *)
Definition add_contribution (pagerank : list (Z * Q)) (rank : Q)
           (incoming_page : Z) : result Q :=
  let outgoing_count := py_len (graph_get graph incoming_page) in
  if 0 <? outgoing_count then
    r ← dict_get pagerank incoming_page;
    q ← py_div r (inject_Z outgoing_count);
    mret (rank + damping * q)%Q
  else mret rank.

(** Body of [for page in pages]: the value stored in [new_pagerank[page]]. *)
Definition new_rank (incoming : gmap Z (list Z)) (pagerank : list (Z * Q))
           (dangling_sum : Q) (page : Z) : result Q :=
  a ← py_div (1 - damping) n_pages;
  b ← py_div dangling_sum n_pages;
  foldM (add_contribution pagerank) (a + damping * b)%Q
        (graph_get incoming page).

(** One execution of the body of the [while] loop, up to the computation
    of [change]: the new dictionary and the relative change of the sums. *)
Definition iteration_body (incoming : gmap Z (list Z)) (dangling : list Z)
           (pagerank : list (Z * Q)) : result (list (Z * Q) * Q) :=
  ds ← mapM (dict_get pagerank) dangling;
  let dangling_sum := py_sum ds in
  new_pagerank ←
    mapM (fun page => r ← new_rank incoming pagerank dangling_sum page;
                      mret (page, r))
         (elements pages);
  let total_old := py_sum (dict_values pagerank) in
  let total_new := py_sum (dict_values new_pagerank) in
  change ← py_div (Qabs (total_new - total_old)) total_old;
  mret (new_pagerank, change).

(** Final state of the [while] loop.  [run_pagerank] and [run_iteration]
    are the program variables; [run_break] (the [break] was executed) and
    [run_performed] (how many times the body ran) are ghost fields that
    the program does not compute. *)
Record run : Type := mkRun {
  run_pagerank : list (Z * Q);
  run_iteration : Z;
  run_break : bool;
  run_performed : nat
}.

(** [while iteration < max_iterations: ...].  [None] means that [fuel]
    body executions were not enough to leave the loop. *)
Fixpoint while_loop (fuel : nat) (incoming : gmap Z (list Z))
         (dangling : list Z) (pagerank : list (Z * Q)) (iteration : Z)
         (performed : nat) : option (result run) :=
  if iteration <? max_iterations then
    match fuel with
    | O => None
    | S fuel' =>
        match iteration_body incoming dangling pagerank with
        | Raise e => Some (Raise e)
        | Ok (new_pagerank, change) =>
            let iteration' := iteration + 1 in
            if Qlt_bool change tolerance
            then Some (Ok (mkRun new_pagerank iteration' true (S performed)))
            else while_loop fuel' incoming dangling new_pagerank iteration'
                            (S performed)
        end
    end
  else Some (Ok (mkRun pagerank iteration false performed)).

(** The function up to the end of the loop. *)
Definition pagerank_run (fuel : nat) : option (result run) :=
  match initial_pagerank with
  | Raise e => Some (Raise e)
  | Ok pagerank =>
      while_loop fuel build_incoming dangling_nodes pagerank 0 O
  end.

(** [return pagerank, iteration] *)
Definition compute_pagerank_fuel (fuel : nat)
  : option (result (list (Z * Q) * Z)) :=
  match pagerank_run fuel with
  | None => None
  | Some (Raise e) => Some (Raise e)
  | Some (Ok r) => Some (Ok (run_pagerank r, run_iteration r))
  end.

(** The loop runs its body at most [max_iterations] times, so that much
    fuel always suffices (see [compute_pagerank_terminates]). *)
Definition compute_pagerank : option (result (list (Z * Q) * Z)) :=
  compute_pagerank_fuel (Z.to_nat max_iterations).

End PageRank.

(** ** Sums of rationals *)

(** Mathematical sum of a list, used in statements. *)
Definition Qsum (xs : list Q) : Q := fold_right Qplus 0%Q xs.

(** Sum of [f] over a list of indices. *)
Definition Qsum_over {A} (f : A -> Q) (l : list A) : Q := Qsum (map f l).

Section QsumFacts.
Local Open Scope Q_scope.

Lemma fold_left_Qplus (xs : list Q) (a : Q) :
  fold_left Qplus xs a == a + Qsum xs.
Proof.
  revert a. induction xs as [|x xs IH]; intros a; simpl.
  - ring.
  - rewrite IH. ring.
Qed.

Lemma py_sum_Qsum (xs : list Q) : py_sum xs == Qsum xs.
Proof. unfold py_sum. rewrite fold_left_Qplus. ring. Qed.

Lemma Qsum_app (xs ys : list Q) : Qsum (xs ++ ys) == Qsum xs + Qsum ys.
Proof.
  induction xs as [|x xs IH]; simpl.
  - ring.
  - rewrite IH. ring.
Qed.

Context {A : Type}.
Implicit Types (f g : A -> Q) (l : list A).

Lemma Qsum_over_cons f x l : Qsum_over f (x :: l) = f x + Qsum_over f l.
Proof. reflexivity. Qed.

Lemma Qsum_over_app f l1 l2 :
  Qsum_over f (l1 ++ l2) == Qsum_over f l1 + Qsum_over f l2.
Proof. unfold Qsum_over. rewrite map_app. apply Qsum_app. Qed.

Lemma Qsum_over_ext f g l :
  (forall x, In x l -> f x == g x) -> Qsum_over f l == Qsum_over g l.
Proof.
  induction l as [|x l IH]; intros H; [reflexivity|].
  rewrite !Qsum_over_cons, (H x), IH; [reflexivity| |left; reflexivity].
  intros y Hy. apply H. right. exact Hy.
Qed.

Lemma Qsum_over_scale (c : Q) f l :
  Qsum_over (fun x => c * f x) l == c * Qsum_over f l.
Proof.
  induction l as [|x l IH]; [unfold Qsum_over; simpl; ring|].
  rewrite !Qsum_over_cons, IH. ring.
Qed.

Lemma Qsum_over_plus f g l :
  Qsum_over (fun x => f x + g x) l == Qsum_over f l + Qsum_over g l.
Proof.
  induction l as [|x l IH]; [unfold Qsum_over; simpl; ring|].
  rewrite !Qsum_over_cons, IH. ring.
Qed.

Lemma Qsum_over_const (c : Q) l :
  Qsum_over (fun _ => c) l == inject_Z (py_len l) * c.
Proof.
  unfold py_len.
  induction l as [|x l IH]; [unfold Qsum_over; simpl; ring|].
  rewrite Qsum_over_cons, IH. cbn [length].
  rewrite Nat2Z.inj_succ, <- Z.add_1_r, inject_Z_plus. ring.
Qed.

Lemma Qsum_over_zero f l :
  (forall x, In x l -> f x == 0) -> Qsum_over f l == 0.
Proof.
  intros H. rewrite (Qsum_over_ext f (fun _ => 0) l H), Qsum_over_const. ring.
Qed.

Lemma Qsum_over_nonneg f l :
  (forall x, In x l -> 0 <= f x) -> 0 <= Qsum_over f l.
Proof.
  induction l as [|x l IH]; intros H; [unfold Qsum_over; simpl; lra|].
  rewrite Qsum_over_cons.
  assert (0 <= f x) by (apply H; left; reflexivity).
  assert (0 <= Qsum_over f l) by (apply IH; intros y Hy; apply H; right; exact Hy).
  lra.
Qed.

Lemma Qsum_over_pos f l :
  l <> [] -> (forall x, In x l -> 0 < f x) -> 0 < Qsum_over f l.
Proof.
  destruct l as [|x l]; [congruence|]. intros _ H.
  rewrite Qsum_over_cons.
  assert (0 < f x) by (apply H; left; reflexivity).
  assert (0 <= Qsum_over f l).
  { apply Qsum_over_nonneg. intros y Hy. apply Qlt_le_weak, H. right. exact Hy. }
  lra.
Qed.

(** A sum split by a test on the index. *)
Lemma Qsum_over_filter_split (t : A -> bool) f l :
  Qsum_over f l ==
  Qsum_over f (List.filter t l) + Qsum_over f (List.filter (fun x => negb (t x)) l).
Proof.
  induction l as [|x l IH]; [unfold Qsum_over; simpl; ring|].
  cbn [List.filter]. destruct (t x); cbn [negb];
    rewrite !Qsum_over_cons, IH; ring.
Qed.

End QsumFacts.

Lemma Qsum_over_flat_map {A B} (h : B -> Q) (k : A -> list B) (l : list A) :
  (Qsum_over h (flat_map k l) == Qsum_over (fun x => Qsum_over h (k x)) l)%Q.
Proof.
  induction l as [|x l IH]; [reflexivity|].
  cbn [flat_map]. rewrite Qsum_over_app, Qsum_over_cons, IH. reflexivity.
Qed.

(** Exchange of two finite sums. *)
Lemma Qsum_over_swap {A B} (f : A -> B -> Q) (l1 : list A) (l2 : list B) :
  (Qsum_over (fun x => Qsum_over (fun y => f x y) l2) l1 ==
   Qsum_over (fun y => Qsum_over (fun x => f x y) l1) l2)%Q.
Proof.
  induction l1 as [|x l1 IH].
  - symmetry. apply Qsum_over_zero. intros; reflexivity.
  - rewrite Qsum_over_cons, IH.
    rewrite <- Qsum_over_plus. apply Qsum_over_ext. intros y _.
    rewrite Qsum_over_cons. reflexivity.
Qed.

Lemma Qlt_bool_iff (a b : Q) : Qlt_bool a b = true <-> (a < b)%Q.
Proof.
  unfold Qlt_bool. rewrite negb_true_iff.
  split.
  - intros H. apply Qnot_le_lt. intros Hle.
    apply Qle_bool_iff in Hle. congruence.
  - intros H. destruct (Qle_bool b a) eqn:E; [|reflexivity].
    apply Qle_bool_iff in E. apply Qle_not_lt in E. contradiction.
Qed.

Lemma py_div_ok (a b : Q) : ~ (b == 0)%Q -> py_div a b = Ok (a / b)%Q.
Proof.
  intros H. unfold py_div. destruct (Qeq_bool b 0) eqn:E; [|reflexivity].
  apply Qeq_bool_iff in E. contradiction.
Qed.

Lemma py_div_zero (a b : Q) : (b == 0)%Q -> py_div a b = Raise ZeroDivisionError.
Proof.
  intros H. unfold py_div. apply Qeq_bool_iff in H. rewrite H. reflexivity.
Qed.

(** ** Facts about the monad and the dictionaries *)

Lemma mapM_result_ok {A B} (f : A -> result B) (g : A -> B) (l : list A) :
  (forall x, x ∈ l -> f x = Ok (g x)) -> mapM f l = Ok (map g l).
Proof.
  induction l as [|x l IH]; intros H; [reflexivity|].
  cbn [mapM map]. rewrite (H x) by (left). cbn.
  rewrite IH; [reflexivity|]. intros y Hy. apply H. right. exact Hy.
Qed.

(** The value found under a key, [0] when the key is absent (statements
    only use it on keys that are present). *)
Definition rank_of (d : list (Z * Q)) (k : Z) : Q :=
  match dict_get d k with Ok v => v | Raise _ => 0%Q end.

Lemma dict_get_rank_of (d : list (Z * Q)) (k : Z) :
  k ∈ dict_keys d -> dict_get d k = Ok (rank_of d k).
Proof.
  unfold rank_of.
  induction d as [|[k' v] d IH]; cbn [dict_keys map fst dict_get]; intros H.
  - inversion H.
  - destruct (decide (k' = k)) as [->|Hne]; [reflexivity|].
    apply IH. apply elem_of_cons in H as [H|H]; [congruence|exact H].
Qed.

Lemma dict_get_key_error (d : list (Z * Q)) (k : Z) :
  k ∉ dict_keys d -> dict_get d k = Raise KeyError.
Proof.
  induction d as [|[k' v] d IH]; cbn [dict_keys map fst dict_get]; intros H;
    [reflexivity|].
  apply not_elem_of_cons in H as [H1 H2].
  destruct (decide (k' = k)); [congruence|]. apply IH, H2.
Qed.

(** A dictionary built by one pass over distinct keys. *)
Lemma rank_of_tabulate (f : Z -> Q) (l : list Z) (k : Z) :
  k ∈ l -> rank_of (map (fun p => (p, f p)) l) k = f k.
Proof.
  unfold rank_of. induction l as [|x l IH]; intros H; [inversion H|].
  cbn [map dict_get]. destruct (decide (x = k)) as [->|Hne]; [reflexivity|].
  apply IH. apply elem_of_cons in H as [H|H]; [congruence|exact H].
Qed.

Lemma dict_keys_tabulate (f : Z -> Q) (l : list Z) :
  dict_keys (map (fun p => (p, f p)) l) = l.
Proof. unfold dict_keys. rewrite map_map. cbn. apply map_id. Qed.

Lemma dict_values_tabulate (f : Z -> Q) (l : list Z) :
  dict_values (map (fun p => (p, f p)) l) = map f l.
Proof. unfold dict_values. rewrite map_map. reflexivity. Qed.

(** With distinct keys, the values are the ranks of the keys, in order. *)
Lemma dict_values_rank_of (d : list (Z * Q)) :
  NoDup (dict_keys d) -> dict_values d = map (rank_of d) (dict_keys d).
Proof.
  induction d as [|[k v] d IH]; cbn [dict_keys dict_values map fst snd];
    intros H; [reflexivity|].
  apply NoDup_cons in H as [Hk Hd].
  f_equal.
  - unfold rank_of. cbn [dict_get]. rewrite decide_True by reflexivity. reflexivity.
  - fold (dict_values d). fold (dict_keys d). rewrite IH by exact Hd.
    apply map_ext_in. intros a Ha. unfold rank_of at 2. cbn [dict_get].
    destruct (decide (k = a)) as [->|Hne]; [|reflexivity].
    exfalso. apply Hk. apply list_elem_of_In. exact Ha.
Qed.

(** ** The incoming index *)

Section Incoming.
Variable graph : gmap Z (list Z).
Variable pages : gset Z.

(** One entry [q] per edge [q -> p] whose source is in [pages], in the
    order in which the builder meets the edges. *)
Definition in_links (p : Z) : list Z :=
  flat_map (fun q => map (fun _ => q)
                         (List.filter (fun t => t =? p) (graph_get graph q)))
           (elements pages).

Lemma graph_get_dd_append (inc : gmap Z (list Z)) (target page t : Z) :
  graph_get (dd_append inc target page) t =
  graph_get inc t ++ (if target =? t then [page] else []).
Proof.
  unfold dd_append, graph_get at 1.
  destruct (Z.eqb_spec target t) as [->|Hne].
  - rewrite lookup_insert_eq. reflexivity.
  - rewrite lookup_insert_ne by exact Hne. rewrite app_nil_r. reflexivity.
Qed.

Lemma incoming_inner (page : Z) (ts : list Z) (inc : gmap Z (list Z)) (t : Z) :
  graph_get (fold_left (fun incoming target => dd_append incoming target page)
                       ts inc) t =
  graph_get inc t ++ map (fun _ => page) (List.filter (fun x => x =? t) ts).
Proof.
  revert inc. induction ts as [|x ts IH]; intros inc; cbn [fold_left List.filter].
  - rewrite app_nil_r. reflexivity.
  - rewrite IH, graph_get_dd_append.
    destruct (x =? t); cbn [map]; rewrite <- app_assoc; reflexivity.
Qed.

Lemma incoming_outer (ps : list Z) (inc : gmap Z (list Z)) (t : Z) :
  graph_get
    (fold_left
       (fun incoming page =>
          fold_left (fun incoming target => dd_append incoming target page)
                    (graph_get graph page) incoming) ps inc) t =
  graph_get inc t ++
  flat_map (fun q => map (fun _ => q)
                         (List.filter (fun x => x =? t) (graph_get graph q))) ps.
Proof.
  revert inc. induction ps as [|p ps IH]; intros inc; cbn [fold_left flat_map].
  - rewrite app_nil_r. reflexivity.
  - rewrite IH, incoming_inner, <- app_assoc. reflexivity.
Qed.

(** [incoming[p]] as the program builds it. *)
Lemma build_incoming_get (p : Z) :
  graph_get (build_incoming graph pages) p = in_links p.
Proof. unfold build_incoming. rewrite incoming_outer. reflexivity. Qed.

Lemma in_links_source (p q : Z) :
  q ∈ in_links p <-> q ∈ pages /\ p ∈ graph_get graph q.
Proof.
  unfold in_links. rewrite !list_elem_of_In, in_flat_map. split.
  - intros (x & Hx & Hq). apply in_map_iff in Hq as (t & <- & Ht).
    apply filter_In in Ht as [Ht E]. apply Z.eqb_eq in E. subst t.
    rewrite <- elem_of_elements, !list_elem_of_In. split; assumption.
  - rewrite <- elem_of_elements, !list_elem_of_In.
    intros [Hq Hp]. exists q. split; [exact Hq|].
    apply in_map_iff. exists p. split; [reflexivity|].
    apply filter_In. split; [exact Hp|apply Z.eqb_refl].
Qed.

End Incoming.

(** ** One iteration *)

Definition from_result {A} (d : A) (r : result A) : A :=
  match r with Ok a => a | Raise _ => d end.

Lemma mapM_result_total {A B} (d : B) (f : A -> result B) (l : list A) :
  (forall x, x ∈ l -> is_ok (f x) = true) ->
  mapM f l = Ok (map (fun x => from_result d (f x)) l).
Proof.
  intros H. apply mapM_result_ok. intros x Hx.
  specialize (H x Hx). destruct (f x); [reflexivity|discriminate].
Qed.

Section Step.
Variable graph : gmap Z (list Z).
Variable pages : gset Z.
Variable damping : Q.

Local Abbreviation n := (n_pages pages).
Local Abbreviation incoming := (build_incoming graph pages).
Local Abbreviation dangling := (dangling_nodes graph pages).

(** [len(graph[q])] *)
Definition out_degree (q : Z) : Z := py_len (graph_get graph q).

(** What one edge leaving [q] carries. *)
Definition contribution (pagerank : list (Z * Q)) (q : Z) : Q :=
  (rank_of pagerank q / inject_Z (out_degree q))%Q.

(** Sum of the ranks of the pages without outgoing edges. *)
Definition dangling_mass (pagerank : list (Z * Q)) : Q :=
  Qsum_over (rank_of pagerank) dangling.

(** The update formula, one term per edge [q -> p]. *)
Definition next_rank (pagerank : list (Z * Q)) (p : Z) : Q :=
  ((1 - damping) / n + damping * (dangling_mass pagerank / n)
   + damping * Qsum_over (contribution pagerank) (in_links graph pages p))%Q.

(** The value the program stores for [page]. *)
Definition new_rank_value (pagerank : list (Z * Q)) (page : Z) : Q :=
  from_result 0%Q
    (new_rank graph pages damping incoming pagerank
              (py_sum (map (rank_of pagerank) dangling)) page).

(** The dictionary [new_pagerank] once the [for] loop has filled it. *)
Definition step (pagerank : list (Z * Q)) : list (Z * Q) :=
  map (fun page => (page, new_rank_value pagerank page)) (elements pages).

(** [sum(d.values())] *)
Definition total (d : list (Z * Q)) : Q := py_sum (dict_values d).

(** [change] as the program computes it from the two dictionaries. *)
Definition change_of (old new : list (Z * Q)) : result Q :=
  py_div (Qabs (total new - total old)) (total old).

Lemma n_pages_pos : pages <> ∅ -> (0 < n)%Q.
Proof.
  intros H. unfold n_pages, py_len.
  destruct (elements pages) as [|x l] eqn:E.
  - apply elements_empty_iff in E. apply leibniz_equiv in E. contradiction.
  - change 0%Q with (inject_Z 0). rewrite <- Zlt_Qlt. cbn [length]. lia.
Qed.

Lemma out_degree_pos (p q : Z) : p ∈ graph_get graph q -> 0 < out_degree q.
Proof.
  unfold out_degree, py_len. destruct (graph_get graph q); [inversion 1|].
  intros _. cbn [length]. lia.
Qed.

Lemma dangling_in_pages (q : Z) : q ∈ dangling -> q ∈ pages.
Proof.
  unfold dangling_nodes. rewrite list_elem_of_In, filter_In.
  intros [H _]. apply elem_of_elements, list_elem_of_In, H.
Qed.

Lemma add_contribution_ok (pagerank : list (Z * Q)) (a : Q) (q : Z) :
  q ∈ dict_keys pagerank -> 0 < out_degree q ->
  add_contribution graph damping pagerank a q =
  Ok (a + damping * contribution pagerank q)%Q.
Proof.
  intros Hk Hd. unfold add_contribution. cbv zeta. fold (out_degree q).
  destruct (Z.ltb_spec 0 (out_degree q)) as [_|]; [|lia].
  rewrite (dict_get_rank_of _ _ Hk). cbn.
  rewrite py_div_ok; [reflexivity|].
  change 0%Q with (inject_Z 0). rewrite inject_Z_injective. lia.
Qed.

Lemma foldM_contributions (pagerank : list (Z * Q)) (l : list Z) (a : Q) :
  (forall q, q ∈ l -> q ∈ dict_keys pagerank /\ 0 < out_degree q) ->
  exists r, foldM (add_contribution graph damping pagerank) a l = Ok r /\
            (r == a + damping * Qsum_over (contribution pagerank) l)%Q.
Proof.
  revert a. induction l as [|q l IH]; intros a H.
  - exists a. split; [reflexivity|]. unfold Qsum_over; cbn. ring.
  - destruct (H q) as [Hk Hd]; [left|].
    cbn [foldM]. rewrite (add_contribution_ok _ _ _ Hk Hd).
    cbn [mbind result_bind].
    destruct (IH (a + damping * contribution pagerank q)%Q) as (r & Hr & Er).
    { intros q' Hq'. apply H. right. exact Hq'. }
    exists r. split; [exact Hr|].
    rewrite Er, Qsum_over_cons. ring.
Qed.

Section WithKeys.
Variable pagerank : list (Z * Q).
Hypothesis nonempty : pages <> ∅.
Hypothesis keys : dict_keys pagerank = elements pages.

Lemma new_rank_ok (ds : Q) (p : Z) :
  exists r, new_rank graph pages damping incoming pagerank ds p = Ok r /\
            (r == (1 - damping) / n + damping * (ds / n)
                  + damping * Qsum_over (contribution pagerank)
                                        (in_links graph pages p))%Q.
Proof.
  pose proof (n_pages_pos nonempty) as Hn.
  unfold new_rank.
  rewrite !py_div_ok by lra. cbn.
  rewrite build_incoming_get.
  apply foldM_contributions.
  intros q Hq. apply in_links_source in Hq as [Hq Hp].
  split; [|exact (out_degree_pos _ _ Hp)].
  rewrite keys. apply elem_of_elements, Hq.
Qed.

Lemma dangling_sum_ok :
  mapM (dict_get pagerank) dangling = Ok (map (rank_of pagerank) dangling).
Proof.
  apply mapM_result_ok. intros q Hq. apply dict_get_rank_of.
  rewrite keys. apply elem_of_elements, dangling_in_pages, Hq.
Qed.

Lemma new_rank_value_spec (p : Z) :
  (new_rank_value pagerank p == next_rank pagerank p)%Q.
Proof.
  unfold new_rank_value.
  destruct (new_rank_ok (py_sum (map (rank_of pagerank) dangling)) p)
    as (r & -> & Er).
  cbn. rewrite Er. unfold next_rank, dangling_mass, Qsum_over.
  rewrite py_sum_Qsum. reflexivity.
Qed.

(** The body only fails at the division by the old total. *)
Lemma iteration_body_step :
  iteration_body graph pages damping incoming dangling pagerank =
  change ← change_of pagerank (step pagerank); mret (step pagerank, change).
Proof.
  unfold iteration_body. rewrite dangling_sum_ok. cbn.
  rewrite (mapM_result_ok _
             (fun page => (page, new_rank_value pagerank page))).
  - reflexivity.
  - intros p _. unfold new_rank_value.
    destruct (new_rank_ok (py_sum (map (rank_of pagerank) dangling)) p)
      as (r & -> & _).
    reflexivity.
Qed.

Lemma step_keys : dict_keys (step pagerank) = elements pages.
Proof. apply dict_keys_tabulate. Qed.

Lemma rank_of_step (p : Z) :
  p ∈ pages -> (rank_of (step pagerank) p == next_rank pagerank p)%Q.
Proof.
  intros Hp. unfold step.
  rewrite (rank_of_tabulate (new_rank_value pagerank))
    by (apply elem_of_elements, Hp).
  apply new_rank_value_spec.
Qed.

Lemma total_rank_of :
  (total pagerank == Qsum_over (rank_of pagerank) (elements pages))%Q.
Proof.
  unfold total. rewrite py_sum_Qsum, dict_values_rank_of, keys.
  - reflexivity.
  - rewrite keys. apply NoDup_elements.
Qed.

Lemma total_step :
  (total (step pagerank) == Qsum_over (next_rank pagerank) (elements pages))%Q.
Proof.
  unfold total, step. rewrite py_sum_Qsum, dict_values_tabulate.
  apply Qsum_over_ext. intros p _. apply new_rank_value_spec.
Qed.

End WithKeys.

End Step.

(** ** Counting edges by target *)

Lemma Qsum_over_filter {A} (t : A -> bool) (f : A -> Q) (l : list A) :
  (Qsum_over f (List.filter t l) ==
   Qsum_over (fun x => if t x then f x else 0) l)%Q.
Proof.
  induction l as [|x l IH]; [reflexivity|].
  cbn [List.filter]. rewrite Qsum_over_cons. destruct (t x).
  - rewrite Qsum_over_cons, IH. reflexivity.
  - rewrite IH. ring.
Qed.

Lemma indicator_sum_in (t : Z) (P : list Z) :
  NoDup P -> t ∈ P ->
  (Qsum_over (fun p => if t =? p then 1 else 0) P == 1)%Q.
Proof.
  induction P as [|x P IH]; intros Hnd Hin; [inversion Hin|].
  apply NoDup_cons in Hnd as [Hx Hnd].
  rewrite Qsum_over_cons.
  destruct (Z.eqb_spec t x) as [->|Hne].
  - rewrite Qsum_over_zero; [ring|].
    intros y Hy. destruct (Z.eqb_spec x y) as [->|]; [|reflexivity].
    exfalso. apply Hx, list_elem_of_In, Hy.
  - apply elem_of_cons in Hin as [Hin|Hin]; [contradiction|].
    rewrite IH by assumption. ring.
Qed.

Lemma count_by_target (l P : list Z) :
  NoDup P -> (forall t, t ∈ l -> t ∈ P) ->
  (Qsum_over (fun p => inject_Z (py_len (List.filter (fun t => t =? p) l))) P
   == inject_Z (py_len l))%Q.
Proof.
  intros Hnd. induction l as [|t l IH]; intros Hin.
  - apply Qsum_over_zero. intros; reflexivity.
  - rewrite (Qsum_over_ext _
      (fun p => (if t =? p then 1 else 0)
                + inject_Z (py_len (List.filter (fun t => t =? p) l)))%Q).
    + rewrite Qsum_over_plus, IH, indicator_sum_in.
      * unfold py_len. cbn [length].
        rewrite Nat2Z.inj_succ, <- Z.add_1_r, inject_Z_plus. ring.
      * exact Hnd.
      * apply Hin. left.
      * intros x Hx. apply Hin. right. exact Hx.
    + intros p _. cbn [List.filter]. destruct (t =? p).
      * unfold py_len. cbn [length].
        rewrite Nat2Z.inj_succ, <- Z.add_1_r, inject_Z_plus. ring.
      * ring.
Qed.

(** ** Conservation and positivity of the rank mass *)

Section Mass.
Variable graph : gmap Z (list Z).
Variable pages : gset Z.
Variable damping : Q.

Local Abbreviation n := (n_pages pages).

(** Every edge leaving a page of [pages] ends in [pages]. *)
Definition closed_graph : Prop :=
  forall q t, q ∈ pages -> t ∈ graph_get graph q -> t ∈ pages.

Lemma sum_in_links (c : Z -> Q) :
  closed_graph ->
  (Qsum_over (fun p => Qsum_over c (in_links graph pages p)) (elements pages)
   == Qsum_over (fun q => inject_Z (out_degree graph q) * c q) (elements pages))%Q.
Proof.
  intros Hcl. unfold in_links.
  rewrite (Qsum_over_ext _
    (fun p => Qsum_over
       (fun q => inject_Z (py_len (List.filter (fun t => t =? p)
                                               (graph_get graph q))) * c q)
       (elements pages))%Q).
  - rewrite Qsum_over_swap. apply Qsum_over_ext. intros q Hq.
    rewrite (Qsum_over_ext _
      (fun p => c q * inject_Z (py_len (List.filter (fun t => t =? p)
                                                    (graph_get graph q))))%Q)
      by (intros; ring).
    rewrite Qsum_over_scale, count_by_target.
    + unfold out_degree. ring.
    + apply NoDup_elements.
    + intros t Ht. apply elem_of_elements, (Hcl q); [|exact Ht].
      apply elem_of_elements, list_elem_of_In, Hq.
  - intros p _. rewrite Qsum_over_flat_map. apply Qsum_over_ext. intros q _.
    unfold Qsum_over at 1. rewrite map_map.
    apply (Qsum_over_const (c q)).
Qed.

Section WithKeys.
Variable pagerank : list (Z * Q).
Hypothesis nonempty : pages <> ∅.
Hypothesis keys : dict_keys pagerank = elements pages.

(** In a closed graph one iteration maps total mass [m] to
    [(1 - d) + d * m]. *)
Lemma total_step_closed :
  closed_graph ->
  (total (step graph pages damping pagerank)
   == (1 - damping) + damping * total pagerank)%Q.
Proof.
  intros Hcl. pose proof (n_pages_pos pages nonempty) as Hn.
  rewrite (total_step graph pages damping pagerank nonempty keys).
  rewrite (total_rank_of pages pagerank keys).
  unfold next_rank.
  rewrite !Qsum_over_plus, !Qsum_over_const, Qsum_over_scale.
  rewrite (sum_in_links _ Hcl).
  rewrite (Qsum_over_filter_split
             (fun q => out_degree graph q =? 0) (rank_of pagerank)).
  fold (dangling_nodes graph pages).
  fold (dangling_mass graph pages pagerank).
  rewrite (Qsum_over_filter (fun q => negb (out_degree graph q =? 0))).
  rewrite (Qsum_over_ext
             (fun q => inject_Z (out_degree graph q) * contribution graph pagerank q)
             (fun q => if negb (out_degree graph q =? 0)
                       then rank_of pagerank q else 0))%Q.
  - change (Qsum_over (rank_of pagerank) (List.filter _ (elements pages)))
      with (dangling_mass graph pages pagerank).
    fold n. generalize dependent n. intros N HN.
    generalize (dangling_mass graph pages pagerank). intros dm.
    match goal with |- context [Qsum_over ?f ?l] =>
      generalize (Qsum_over f l) end.
    intros rest. field. lra.
  - intros q _. unfold contribution.
    destruct (Z.eqb_spec (out_degree graph q) 0) as [->|Hne]; cbn [negb].
    + change (inject_Z 0) with 0%Q. ring.
    + field. change 0%Q with (inject_Z 0). rewrite inject_Z_injective. exact Hne.
Qed.

Hypothesis damping_lo : (0 < damping)%Q.
Hypothesis damping_hi : (damping < 1)%Q.
Hypothesis ranks_nonneg : forall q, q ∈ pages -> (0 <= rank_of pagerank q)%Q.

Lemma next_rank_pos (p : Z) : (0 < next_rank graph pages damping pagerank p)%Q.
Proof.
  pose proof (n_pages_pos pages nonempty) as Hn.
  unfold next_rank.
  assert (0 < (1 - damping) / n)%Q as H1.
  { apply Qlt_shift_div_l; [exact Hn|]. lra. }
  assert (0 <= dangling_mass graph pages pagerank / n)%Q as H2.
  { apply Qle_shift_div_l; [exact Hn|]. rewrite Qmult_0_l.
    apply Qsum_over_nonneg. intros q Hq. apply ranks_nonneg.
    apply (dangling_in_pages graph pages), list_elem_of_In, Hq. }
  assert (0 <= Qsum_over (contribution graph pagerank)
                         (in_links graph pages p))%Q as H3.
  { apply Qsum_over_nonneg. intros q Hq.
    apply list_elem_of_In, in_links_source in Hq as [Hq Hp].
    unfold contribution. apply Qle_shift_div_l.
    - change 0%Q with (inject_Z 0). rewrite <- Zlt_Qlt.
      exact (out_degree_pos graph _ _ Hp).
    - rewrite Qmult_0_l. apply ranks_nonneg, Hq. }
  pose proof (Qmult_le_0_compat _ _ (Qlt_le_weak _ _ damping_lo) H2).
  pose proof (Qmult_le_0_compat _ _ (Qlt_le_weak _ _ damping_lo) H3).
  lra.
Qed.

Lemma total_pos :
  (forall q, q ∈ pages -> (0 < rank_of pagerank q)%Q) -> (0 < total pagerank)%Q.
Proof.
  intros Hpos. rewrite (total_rank_of pages pagerank keys).
  apply Qsum_over_pos.
  - intros E. apply elements_empty_iff, leibniz_equiv in E. contradiction.
  - intros q Hq. apply Hpos, elem_of_elements, list_elem_of_In, Hq.
Qed.

End WithKeys.

End Mass.

(** ** The sequence of rank vectors *)

Section Iterates.
Variable graph : gmap Z (list Z).
Variable pages : gset Z.
Variable damping : Q.

Local Abbreviation n := (n_pages pages).
Local Abbreviation incoming := (build_incoming graph pages).
Local Abbreviation dangling := (dangling_nodes graph pages).
Local Abbreviation body := (iteration_body graph pages damping incoming dangling).

(** The dictionary [pagerank] after [k] executions of the loop body,
    whatever the stopping rule. *)
Fixpoint pagerank_after (k : nat) : result (list (Z * Q)) :=
  match k with
  | O => initial_pagerank pages
  | S k' => pr ← pagerank_after k'; nc ← body pr; mret (fst nc)
  end.

(** The value of [change] computed by execution number [k + 1] of the body. *)
Definition change_at (k : nat) : result Q :=
  pr ← pagerank_after k; nc ← body pr; mret (snd nc).

(** The uniform vector. *)
Definition uniform : list (Z * Q) :=
  map (fun page => (page, 1 / n)%Q) (elements pages).

Hypothesis nonempty : pages <> ∅.

Lemma initial_pagerank_uniform : initial_pagerank pages = Ok uniform.
Proof.
  unfold initial_pagerank, uniform. apply mapM_result_ok. intros p _.
  rewrite py_div_ok; [reflexivity|].
  pose proof (n_pages_pos pages nonempty). lra.
Qed.

Lemma uniform_keys : dict_keys uniform = elements pages.
Proof. apply dict_keys_tabulate. Qed.

Lemma rank_of_uniform (p : Z) : p ∈ pages -> rank_of uniform p = (1 / n)%Q.
Proof.
  intros Hp. unfold uniform.
  apply (rank_of_tabulate (fun _ => (1 / n)%Q)), elem_of_elements, Hp.
Qed.

Lemma total_uniform : (total uniform == 1)%Q.
Proof.
  pose proof (n_pages_pos pages nonempty) as Hn.
  unfold total, uniform. rewrite py_sum_Qsum.
  rewrite (dict_values_tabulate (fun _ => (1 / n)%Q)).
  fold (Qsum_over (fun _ : Z => (1 / n)%Q) (elements pages)).
  rewrite Qsum_over_const. fold n. field. lra.
Qed.

(** A body execution on a vector of non-zero total. *)
Lemma body_ok (pagerank : list (Z * Q)) :
  dict_keys pagerank = elements pages ->
  ~ (total pagerank == 0)%Q ->
  body pagerank =
  Ok (step graph pages damping pagerank,
      (Qabs (total (step graph pages damping pagerank) - total pagerank)
       / total pagerank)%Q).
Proof.
  intros Hk Ht.
  rewrite (iteration_body_step graph pages damping pagerank nonempty Hk).
  unfold change_of. rewrite py_div_ok by exact Ht. reflexivity.
Qed.

Lemma body_zero_total (pagerank : list (Z * Q)) :
  dict_keys pagerank = elements pages ->
  (total pagerank == 0)%Q ->
  body pagerank = Raise ZeroDivisionError.
Proof.
  intros Hk Ht.
  rewrite (iteration_body_step graph pages damping pagerank nonempty Hk).
  unfold change_of. rewrite py_div_zero by exact Ht. reflexivity.
Qed.

Lemma pagerank_after_S (k : nat) (pagerank : list (Z * Q)) :
  pagerank_after k = Ok pagerank ->
  dict_keys pagerank = elements pages ->
  ~ (total pagerank == 0)%Q ->
  pagerank_after (S k) = Ok (step graph pages damping pagerank) /\
  change_at k =
  Ok (Qabs (total (step graph pages damping pagerank) - total pagerank)
      / total pagerank)%Q.
Proof.
  intros Hpr Hk Ht. unfold change_at. cbn [pagerank_after].
  rewrite Hpr. cbn [mbind result_bind].
  rewrite (body_ok _ Hk Ht). split; reflexivity.
Qed.

(** With a damping factor in (0,1) every iterate exists, is keyed by the
    pages and has positive entries. *)
Lemma iterates_positive (k : nat) :
  (0 < damping)%Q -> (damping < 1)%Q ->
  exists pagerank,
    pagerank_after k = Ok pagerank /\
    dict_keys pagerank = elements pages /\
    (forall q, q ∈ pages -> (0 < rank_of pagerank q)%Q).
Proof.
  intros Hlo Hhi. induction k as [|k (pr & Hpr & Hk & Hpos)].
  - exists uniform. split; [apply initial_pagerank_uniform|].
    split; [apply uniform_keys|].
    intros q Hq. rewrite (rank_of_uniform q Hq).
    apply Qlt_shift_div_l; [apply (n_pages_pos pages nonempty)|lra].
  - assert (0 < total pr)%Q as Ht by (apply (total_pos pages pr nonempty Hk), Hpos).
    destruct (pagerank_after_S k pr Hpr Hk) as [HS _]; [lra|].
    exists (step graph pages damping pr). split; [exact HS|].
    split; [apply step_keys|].
    intros q Hq. rewrite (rank_of_step graph pages damping pr nonempty Hk q Hq).
    apply next_rank_pos; try assumption.
    intros q' Hq'. apply Qlt_le_weak, Hpos, Hq'.
Qed.

(** In a closed graph every iterate exists and has total mass 1, for any
    damping factor. *)
Lemma iterates_closed (k : nat) :
  closed_graph graph pages ->
  exists pagerank,
    pagerank_after k = Ok pagerank /\
    dict_keys pagerank = elements pages /\
    (total pagerank == 1)%Q.
Proof.
  intros Hcl. induction k as [|k (pr & Hpr & Hk & Ht)].
  - exists uniform. split; [apply initial_pagerank_uniform|].
    split; [apply uniform_keys|apply total_uniform].
  - destruct (pagerank_after_S k pr Hpr Hk) as [HS _]; [lra|].
    exists (step graph pages damping pr). split; [exact HS|].
    split; [apply step_keys|].
    rewrite (total_step_closed graph pages damping pr nonempty Hk Hcl), Ht. ring.
Qed.

End Iterates.

(** ** The loop *)

Section Loop.
Variable graph : gmap Z (list Z).
Variable pages : gset Z.
Variable damping tolerance : Q.
Variable max_iterations : Z.

Local Abbreviation incoming := (build_incoming graph pages).
Local Abbreviation dangling := (dangling_nodes graph pages).
Local Abbreviation after := (pagerank_after graph pages damping).
Local Abbreviation change := (change_at graph pages damping).

(** Every iterate exists, is keyed by the pages and has a non-zero sum. *)
Definition regular : Prop :=
  forall k, exists pagerank,
    after k = Ok pagerank /\
    dict_keys pagerank = elements pages /\
    ~ (total pagerank == 0)%Q.

(** Execution number [j + 1] of the body did not meet the tolerance. *)
Definition not_converged_at (j : nat) : Prop :=
  exists c, change j = Ok c /\ ~ (c < tolerance)%Q.

(** Execution number [j + 1] of the body met the tolerance. *)
Definition converged_at (j : nat) : Prop :=
  exists c, change j = Ok c /\ (c < tolerance)%Q.

(** What the final state of the loop satisfies. *)
Definition loop_post (r : run) : Prop :=
  run_iteration r = Z.of_nat (run_performed r) /\
  run_iteration r <= Z.max 0 max_iterations /\
  after (run_performed r) = Ok (run_pagerank r) /\
  (forall j, (S j < run_performed r)%nat -> not_converged_at j) /\
  (if run_break r
   then exists j, run_performed r = S j /\ converged_at j
   else run_iteration r = Z.max 0 max_iterations /\
        forall j, (j < run_performed r)%nat -> not_converged_at j).

Hypothesis nonempty : pages <> ∅.
Hypothesis Hreg : regular.

Lemma while_loop_spec (fuel i : nat) (pagerank : list (Z * Q)) :
  after i = Ok pagerank ->
  (Z.to_nat (max_iterations - Z.of_nat i) <= fuel)%nat ->
  Z.of_nat i <= Z.max 0 max_iterations ->
  (forall j, (j < i)%nat -> not_converged_at j) ->
  exists r,
    while_loop graph pages damping tolerance max_iterations fuel
               incoming dangling pagerank (Z.of_nat i) i = Some (Ok r) /\
    loop_post r.
Proof.
  revert i pagerank.
  induction fuel as [|fuel IH]; intros i pr Hpr Hfuel Hle Hprev.
  - cbn [while_loop].
    destruct (Z.ltb_spec (Z.of_nat i) max_iterations) as [Hlt|Hge]; [lia|].
    eexists. split; [reflexivity|].
    unfold loop_post; cbn. repeat split; try assumption; try lia.
    intros j Hj. apply Hprev. lia.
  - cbn [while_loop].
    destruct (Z.ltb_spec (Z.of_nat i) max_iterations) as [Hlt|Hge].
    + destruct (Hreg i) as (pr' & Hpr' & Hk & Ht).
      assert (pr' = pr) by congruence. subst pr'.
      destruct (pagerank_after_S graph pages damping nonempty i pr Hpr Hk Ht)
        as [HS Hc].
      rewrite (body_ok graph pages damping nonempty pr Hk Ht).
      set (c := (Qabs (total (step graph pages damping pr) - total pr)
                 / total pr)%Q) in *.
      replace (Z.of_nat i + 1) with (Z.of_nat (S i)) by lia.
      destruct (Qlt_bool c tolerance) eqn:Hconv.
      * eexists. split; [reflexivity|].
        apply Qlt_bool_iff in Hconv.
        unfold loop_post; cbn [run_iteration run_performed run_pagerank run_break].
        repeat split; try assumption; try lia.
        -- intros j Hj. apply Hprev. lia.
        -- exists i. split; [reflexivity|]. exists c. split; assumption.
      * apply IH; try assumption; try lia.
        intros j Hj. destruct (decide (j = i)) as [->|Hne].
        -- exists c. split; [exact Hc|]. intros Hlt'.
           apply Qlt_bool_iff in Hlt'. congruence.
        -- apply Hprev. lia.
    + eexists. split; [reflexivity|].
      unfold loop_post; cbn. repeat split; try assumption; try lia.
      intros j Hj. apply Hprev. lia.
Qed.

(** The fuel [compute_pagerank] passes is enough, and the loop ends in a
    state satisfying [loop_post]. *)
Lemma pagerank_run_spec :
  exists r,
    pagerank_run graph pages damping tolerance max_iterations
                 (Z.to_nat max_iterations) = Some (Ok r) /\
    loop_post r.
Proof.
  unfold pagerank_run.
  destruct (Hreg 0%nat) as (pr & Hpr & _). cbn [pagerank_after] in Hpr.
  rewrite Hpr.
  apply (while_loop_spec (Z.to_nat max_iterations) 0 pr).
  - exact Hpr.
  - cbn. rewrite Z.sub_0_r. lia.
  - cbn. lia.
  - intros j Hj. lia.
Qed.

Lemma compute_pagerank_spec :
  exists r,
    compute_pagerank graph pages damping tolerance max_iterations
    = Some (Ok (run_pagerank r, run_iteration r)) /\
    pagerank_run graph pages damping tolerance max_iterations
                 (Z.to_nat max_iterations) = Some (Ok r) /\
    loop_post r.
Proof.
  destruct pagerank_run_spec as (r & Hr & Hpost).
  exists r. unfold compute_pagerank, compute_pagerank_fuel. rewrite Hr.
  split; [reflexivity|]. split; [reflexivity|exact Hpost].
Qed.

End Loop.

Lemma regular_of_valid_damping graph pages damping :
  pages <> ∅ -> (0 < damping)%Q -> (damping < 1)%Q ->
  regular graph pages damping.
Proof.
  intros Hne Hlo Hhi k.
  destruct (iterates_positive graph pages damping Hne k Hlo Hhi)
    as (pr & Hpr & Hk & Hpos).
  exists pr. repeat split; try assumption.
  pose proof (total_pos pages pr Hne Hk Hpos). lra.
Qed.

Lemma regular_of_closed graph pages damping :
  pages <> ∅ -> closed_graph graph pages -> regular graph pages damping.
Proof.
  intros Hne Hcl k.
  destruct (iterates_closed graph pages damping Hne k Hcl) as (pr & Hpr & Hk & Ht).
  exists pr. repeat split; try assumption. lra.
Qed.

(** ** Termination of the loop *)

Lemma while_loop_enough_fuel graph pages damping tolerance max_iterations
      (fuel : nat) incoming dangling pagerank (iteration : Z) (performed : nat) :
  (Z.to_nat (max_iterations - iteration) <= fuel)%nat ->
  while_loop graph pages damping tolerance max_iterations fuel incoming dangling
             pagerank iteration performed <> None.
Proof.
  revert pagerank iteration performed.
  induction fuel as [|fuel IH]; intros pr i perf Hfuel; cbn [while_loop].
  - destruct (Z.ltb_spec i max_iterations); [lia|discriminate].
  - destruct (Z.ltb_spec i max_iterations); [|discriminate].
    destruct (iteration_body graph pages damping incoming dangling pr)
      as [[new c]|e]; [|discriminate].
    destruct (Qlt_bool c tolerance); [discriminate|].
    apply IH. lia.
Qed.

(** For every input the model of [compute_pagerank] leaves the loop: it
    returns or raises. *)
Lemma compute_pagerank_terminates graph pages damping tolerance max_iterations :
  compute_pagerank graph pages damping tolerance max_iterations <> None.
Proof.
  unfold compute_pagerank, compute_pagerank_fuel, pagerank_run.
  destruct (initial_pagerank pages) as [pr|e]; [|discriminate].
  pose proof (while_loop_enough_fuel graph pages damping tolerance max_iterations
                (Z.to_nat max_iterations) (build_incoming graph pages)
                (dangling_nodes graph pages) pr 0 0%nat) as H.
  destruct (while_loop _ _ _ _ _ _ _ _ _ _ _) as [[r|e]|];
    [discriminate|discriminate|].
  exfalso. apply H; [|reflexivity]. rewrite Z.sub_0_r. lia.
Qed.

(** ** Strings: the built-ins used by the graph builder

    Strings are sequences of ASCII characters.  [str.replace], [int] and
    the regular expression of [parse_links] are modelled on such strings
    (non-ASCII digits and spaces, and the interpreter's optional limit on
    the length of a digit string, are outside the model). *)

Local Open Scope string_scope.

Definition is_digit (c : ascii) : bool :=
  let k := nat_of_ascii c in (48 <=? k)%nat && (k <=? 57)%nat.

(** Whitespace skipped by [int]: tab, newline, vertical tab, form feed,
    carriage return and space. *)
Definition is_space (c : ascii) : bool :=
  let k := nat_of_ascii c in ((9 <=? k)%nat && (k <=? 13)%nat) || (k =? 32)%nat.

Definition digit_value (c : ascii) : Z := Z.of_nat (nat_of_ascii c) - 48.

Definition is_empty (s : string) : bool :=
  match s with EmptyString => true | String _ _ => false end.

Fixpoint lstrip (s : string) : string :=
  match s with
  | String c s' => if is_space c then lstrip s' else s
  | EmptyString => EmptyString
  end.

Fixpoint rstrip (s : string) : string :=
  match s with
  | String c s' =>
      let r := rstrip s' in
      if is_space c && is_empty r then EmptyString else String c r
  | EmptyString => EmptyString
  end.

(** Decimal digits, single underscores allowed between two digits.
    [prev_digit] tells whether the previous character was a digit. *)
Fixpoint parse_digits (acc : Z) (prev_digit : bool) (s : string) : option Z :=
  match s with
  | EmptyString => if prev_digit then Some acc else None
  | String c s' =>
      if is_digit c then parse_digits (10 * acc + digit_value c) true s'
      else if Ascii.eqb c "_" && prev_digit then parse_digits acc false s'
      else None
  end.

(** [int(s)] in base 10: surrounding whitespace, an optional sign, digits. *)
Definition py_int (s : string) : result Z :=
  let body := rstrip (lstrip s) in
  let '(sign, ds) :=
    match body with
    | String "+" r => (1, r)
    | String "-" r => (-1, r)
    | _ => (1, body)
    end in
  match parse_digits 0 false ds with
  | Some v => Ok (sign * v)
  | None => Raise ValueError
  end.

(** [s.replace('.html', '')]: every occurrence is removed, scanning from the
    left; [skip] counts the characters of the current occurrence still to
    drop. *)
Fixpoint remove_html_from (skip : nat) (s : string) : string :=
  match s with
  | EmptyString => EmptyString
  | String c s' =>
      match skip with
      | S k => remove_html_from k s'
      | O => if String.prefix ".html" s then remove_html_from 4 s'
             else String c (remove_html_from 0 s')
      end
  end.

Definition remove_html (s : string) : string := remove_html_from 0 s.

(** The longest prefix of digits, and what follows it. *)
Fixpoint span_digits (s : string) : string * string :=
  match s with
  | String c s' =>
      if is_digit c
      then let '(ds, rest) := span_digits s' in (String c ds, rest)
      else (EmptyString, s)
  | EmptyString => (EmptyString, EmptyString)
  end.

Fixpoint drop_chars (k : nat) (s : string) : string :=
  match k, s with
  | S k', String _ s' => drop_chars k' s'
  | _, _ => s
  end.

Definition dquote : ascii := ascii_of_nat 34.

(** The fixed text before and after the digits of an anchor. *)
Definition anchor_open : string := "<a HREF=" ++ String dquote EmptyString.
Definition anchor_close : string := ".html" ++ String dquote ">".

(** A match of the pattern at the start of [s]: the captured digits and
    the length of the whole match. *)
Definition match_anchor (s : string) : option (string * nat) :=
  if String.prefix anchor_open s then
    let '(ds, rest) := span_digits (drop_chars (String.length anchor_open) s) in
    if negb (is_empty ds) && String.prefix anchor_close rest
    then Some (ds, (String.length anchor_open + String.length ds
                    + String.length anchor_close)%nat)
    else None
  else None.

(** [re.findall(pattern, html_content)]: the captured groups of the
    successive non-overlapping matches. *)
Fixpoint findall_from (skip : nat) (s : string) : list string :=
  match s with
  | EmptyString => []
  | String c s' =>
      match skip with
      | S k => findall_from k s'
      | O => match match_anchor s with
             | Some (ds, len) => ds :: findall_from (Nat.pred len) s'
             | None => findall_from 0 s'
             end
      end
  end.

(** [parse_links(html_content)] *)
Definition parse_links (html_content : string) : result (list Z) :=
  mapM py_int (findall_from 0 html_content).

(** ** build_graph *)

(** [int(filename.replace('.html', ''))] *)
Definition page_number (filename : string) : result Z :=
  py_int (remove_html filename).

(** Body of the first loop: [pages.add(page_num)]. *)
Definition add_page (pages : gset Z) (filename : string) : result (gset Z) :=
  page_num ← page_number filename; mret ({[page_num]} ∪ pages).

(** Body of the second loop. *)
Definition add_document (gi : gmap Z (list Z) * gmap Z (list Z))
           (item : string * string) : result (gmap Z (list Z) * gmap Z (list Z)) :=
  page_num ← page_number (fst item);
  outgoing_links ← parse_links (snd item);
  mret (<[page_num := outgoing_links]> (fst gi),
        fold_left (fun incoming target => dd_append incoming target page_num)
                  outgoing_links (snd gi)).

(** [files_content] is a dictionary from file names to texts, visited in
    insertion order: an association list with distinct keys. *)
Definition build_graph (files_content : list (string * string))
  : result (gmap Z (list Z) * gmap Z (list Z) * gset Z) :=
  pages ← foldM add_page ∅ (map fst files_content);
  gi ← foldM add_document (∅, ∅) files_content;
  mret (fst gi, snd gi, pages).

(** ** The functions of the [statistics] module and the built-ins used by
    the link statistics

    Modelled from the Python standard library, on lists of integers, with
    exact rational results.  [single_point] tells whether
    [statistics.quantiles] accepts a single data point: it does from
    Python 3.13 on, and raises [StatisticsError] before. *)

Local Open Scope Z_scope.

Fixpoint insert_sorted (x : Z) (l : list Z) : list Z :=
  match l with
  | [] => [x]
  | y :: l' => if x <=? y then x :: l else y :: insert_sorted x l'
  end.

(** [sorted(data)] *)
Definition sorted (data : list Z) : list Z := fold_right insert_sorted [] data.

(** [data[i]]: a negative index counts from the end. *)
Definition list_get (data : list Z) (i : Z) : result Z :=
  let j := if i <? 0 then i + py_len data else i in
  if (0 <=? j) && (j <? py_len data) then
    match nth_error data (Z.to_nat j) with
    | Some x => Ok x
    | None => Raise IndexError
    end
  else Raise IndexError.

(** Exact sum of integers. *)
Definition Zsum (data : list Z) : Z := fold_left Z.add data 0.

(** [statistics.mean(data)] *)
Definition mean (data : list Z) : result Q :=
  let n := py_len data in
  if n <? 1 then Raise StatisticsError
  else Ok (inject_Z (Zsum data) / inject_Z n)%Q.

(** [statistics.median(data)] *)
Definition median (data : list Z) : result Q :=
  let data := sorted data in
  let n := py_len data in
  if n =? 0 then Raise StatisticsError
  else if n mod 2 =? 1 then x ← list_get data (n / 2); mret (inject_Z x)
  else
    let i := n / 2 in
    a ← list_get data (i - 1);
    b ← list_get data i;
    mret (inject_Z (a + b) / 2)%Q.

(** [max(data)] and [min(data)] *)
Definition py_max (data : list Z) : result Z :=
  match data with
  | [] => Raise ValueError
  | x :: data' => Ok (fold_left Z.max data' x)
  end.

Definition py_min (data : list Z) : result Z :=
  match data with
  | [] => Raise ValueError
  | x :: data' => Ok (fold_left Z.min data' x)
  end.

(** [range(a, b)] *)
Definition py_range (a b : Z) : list Z :=
  map (fun k => a + Z.of_nat k) (seq 0 (Z.to_nat (b - a))).

(** One cut point of the exclusive method. *)
Definition cut_point (data : list Z) (ld m n i : Z) : result Q :=
  let j := i * m / n in
  let j := if j <? 1 then 1 else if ld - 1 <? j then ld - 1 else j in
  let delta := i * m - j * n in
  a ← list_get data (j - 1);
  b ← list_get data j;
  mret (inject_Z (a * (n - delta) + b * delta) / inject_Z n)%Q.

(** [statistics.quantiles(data, n=n)] with the default exclusive method. *)
Definition quantiles (single_point : bool) (data : list Z) (n : Z)
  : result (list Q) :=
  if n <? 1 then Raise StatisticsError
  else
    let data := sorted data in
    let ld := py_len data in
    if ld <? 2 then
      if single_point && (ld =? 1)
      then Ok (concat (repeat (map inject_Z data) (Z.to_nat (n - 1))))
      else Raise StatisticsError
    else mapM (cut_point data ld (ld + 1) n) (py_range 1 n).

(** ** compute_statistics *)

(** One of the two dictionaries of the result. *)
Record link_stats : Type := mkStats {
  st_average : Q;
  st_median : Q;
  st_max : Z;
  st_min : Z;
  st_quintiles : list Q
}.

(** The five entries, evaluated in the order of the dictionary display. *)
Definition describe (single_point : bool) (data : list Z) : result link_stats :=
  a ← mean data;
  m ← median data;
  hi ← py_max data;
  lo ← py_min data;
  q ← quantiles single_point data 5;
  mret (mkStats a m hi lo q).

(** [incoming_counts[target] += 1] on a [defaultdict(int)]. *)
Definition count_incr (counts : gmap Z Z) (target : Z) : gmap Z Z :=
  <[target := default 0 (counts !! target) + 1]> counts.

Section Statistics.
Variable single_point : bool.
Variable graph : gmap Z (list Z).
Variable pages : gset Z.

(** [outgoing_counts = [len(graph[page]) for page in pages]] *)
Definition outgoing_counts : list Z :=
  map (fun page => py_len (graph_get graph page)) (elements pages).

(** The nested loops filling [incoming_counts]. *)
Definition incoming_counts : gmap Z Z :=
  fold_left
    (fun counts page => fold_left count_incr (graph_get graph page) counts)
    (elements pages) ∅.

(** [incoming_values = [incoming_counts[page] for page in pages]] *)
Definition incoming_values : list Z :=
  map (fun page => default 0 (incoming_counts !! page)) (elements pages).

(** The result: the ['outgoing'] and the ['incoming'] statistics. *)
Definition compute_statistics : result (link_stats * link_stats) :=
  outgoing ← describe single_point outgoing_counts;
  incoming ← describe single_point incoming_values;
  mret (outgoing, incoming).

End Statistics.

(** ** Facts about the statistics *)

Lemma mapM_is_ok {A B} (f : A -> result B) (l : list A) :
  (forall x, x ∈ l -> is_ok (f x) = true) -> is_ok (mapM f l) = true.
Proof.
  intros H.
  assert (forall d, mapM f l = Ok (map (fun x => from_result d (f x)) l)) as E
    by (intros d; apply mapM_result_total, H).
  destruct l as [|x l]; [reflexivity|].
  destruct (f x) as [b|e] eqn:Hx.
  - rewrite (E b). reflexivity.
  - specialize (H x). rewrite Hx in H. discriminate H. left.
Qed.

Lemma insert_sorted_length (x : Z) (l : list Z) :
  length (insert_sorted x l) = S (length l).
Proof.
  induction l as [|y l IH]; [reflexivity|].
  cbn [insert_sorted]. destruct (x <=? y); cbn [length]; [reflexivity|].
  rewrite IH. reflexivity.
Qed.

Lemma sorted_length (data : list Z) : length (sorted data) = length data.
Proof.
  induction data as [|x data IH]; [reflexivity|].
  cbn [sorted fold_right]. fold (sorted data).
  rewrite insert_sorted_length, IH. reflexivity.
Qed.

Lemma py_len_sorted (data : list Z) : py_len (sorted data) = py_len data.
Proof. unfold py_len. rewrite sorted_length. reflexivity. Qed.

Lemma list_get_in_range (data : list Z) (i : Z) :
  0 <= i < py_len data -> is_ok (list_get data i) = true.
Proof.
  intros H. unfold list_get.
  destruct (Z.ltb_spec i 0); [lia|].
  destruct (Z.leb_spec 0 i); [|lia].
  destruct (Z.ltb_spec i (py_len data)); [|lia]. cbn [andb].
  destruct (nth_error data (Z.to_nat i)) eqn:E; [reflexivity|].
  apply nth_error_None in E. unfold py_len in H. lia.
Qed.

Lemma bind_is_ok {A B} (m : result A) (f : A -> result B) :
  is_ok m = true -> (forall a, is_ok (f a) = true) -> is_ok (m ≫= f) = true.
Proof. destruct m; [intros _ H; apply H|discriminate]. Qed.

Lemma mean_ok (data : list Z) : 1 <= py_len data -> is_ok (mean data) = true.
Proof.
  intros H. unfold mean. destruct (Z.ltb_spec (py_len data) 1); [lia|reflexivity].
Qed.

Lemma median_ok (data : list Z) : 1 <= py_len data -> is_ok (median data) = true.
Proof.
  intros H. unfold median. cbv zeta. rewrite py_len_sorted.
  set (k := py_len data) in *.
  destruct (Z.eqb_spec k 0); [lia|].
  destruct (Z.eqb_spec (k mod 2) 1) as [Hodd|Heven].
  - apply bind_is_ok; [|reflexivity].
    apply list_get_in_range. rewrite py_len_sorted. fold k.
    split; [apply Z.div_pos; lia|apply Z.div_lt; lia].
  - assert (k mod 2 = 0) by (pose proof (Z.mod_pos_bound k 2); lia).
    assert (k = 2 * (k / 2)) by (rewrite (Z.div_mod k 2) at 1; lia).
    apply bind_is_ok; [|intros a; apply bind_is_ok; [|reflexivity]].
    + apply list_get_in_range. rewrite py_len_sorted. fold k. lia.
    + apply list_get_in_range. rewrite py_len_sorted. fold k. lia.
Qed.

Lemma cut_point_ok (data : list Z) (m n i : Z) :
  2 <= py_len data -> is_ok (cut_point data (py_len data) m n i) = true.
Proof.
  intros H. unfold cut_point. cbv zeta.
  set (j := if i * m / n <? 1 then 1
            else if py_len data - 1 <? i * m / n then py_len data - 1
                 else i * m / n).
  assert (1 <= j <= py_len data - 1) as Hj.
  { unfold j. destruct (Z.ltb_spec (i * m / n) 1); [lia|].
    destruct (Z.ltb_spec (py_len data - 1) (i * m / n)); lia. }
  apply bind_is_ok; [|intros a; apply bind_is_ok; [|reflexivity]];
    apply list_get_in_range; lia.
Qed.

Lemma quantiles_ok (single_point : bool) (data : list Z) :
  2 <= py_len data -> is_ok (quantiles single_point data 5) = true.
Proof.
  intros H. unfold quantiles. cbv zeta. rewrite py_len_sorted.
  destruct (Z.ltb_spec 5 1); [lia|].
  destruct (Z.ltb_spec (py_len data) 2); [lia|].
  apply mapM_is_ok. intros i _.
  rewrite <- (py_len_sorted data) at 1. apply cut_point_ok.
  rewrite py_len_sorted. exact H.
Qed.

Lemma quantiles_single (single_point : bool) (x : Z) :
  quantiles single_point [x] 5 =
  if single_point then Ok (repeat (inject_Z x) 4) else Raise StatisticsError.
Proof. destruct single_point; reflexivity. Qed.

Lemma describe_ok (single_point : bool) (data : list Z) :
  2 <= py_len data -> is_ok (describe single_point data) = true.
Proof.
  intros H. unfold describe.
  apply bind_is_ok; [apply mean_ok; lia|intros a].
  apply bind_is_ok; [apply median_ok; lia|intros m].
  apply bind_is_ok; [|intros hi].
  { destruct data; [unfold py_len in H; cbn in H; lia|reflexivity]. }
  apply bind_is_ok; [|intros lo].
  { destruct data; [unfold py_len in H; cbn in H; lia|reflexivity]. }
  apply bind_is_ok; [apply quantiles_ok, H|reflexivity].
Qed.

Lemma describe_empty (single_point : bool) :
  describe single_point [] = Raise StatisticsError.
Proof. reflexivity. Qed.

Lemma describe_single (single_point : bool) (x : Z) :
  is_ok (describe single_point [x]) = single_point.
Proof.
  unfold describe.
  assert (mean [x] = Ok (inject_Z (0 + x) / inject_Z 1)%Q) as -> by reflexivity.
  assert (median [x] = Ok (inject_Z x)) as -> by reflexivity.
  cbn [mbind result_bind py_max py_min fold_left].
  rewrite quantiles_single. destruct single_point; reflexivity.
Qed.

Section CountFacts.
Variable graph : gmap Z (list Z).
Variable pages : gset Z.

Lemma count_incr_get (counts : gmap Z Z) (target t : Z) :
  default 0 (count_incr counts target !! t) =
  default 0 (counts !! t) + (if target =? t then 1 else 0).
Proof.
  unfold count_incr. destruct (Z.eqb_spec target t) as [->|Hne].
  - rewrite lookup_insert_eq. reflexivity.
  - rewrite lookup_insert_ne by exact Hne. cbn. lia.
Qed.

Lemma count_inner (ts : list Z) (counts : gmap Z Z) (t : Z) :
  default 0 (fold_left count_incr ts counts !! t) =
  default 0 (counts !! t) + py_len (List.filter (fun x => x =? t) ts).
Proof.
  revert counts. induction ts as [|x ts IH]; intros counts;
    cbn [fold_left List.filter].
  - unfold py_len. cbn. lia.
  - rewrite IH, count_incr_get. unfold py_len.
    destruct (x =? t); cbn [length]; lia.
Qed.

Lemma count_outer (ps : list Z) (counts : gmap Z Z) (t : Z) :
  default 0
    (fold_left (fun counts page => fold_left count_incr (graph_get graph page) counts)
               ps counts !! t) =
  default 0 (counts !! t) +
  py_len (flat_map (fun q => map (fun _ => q)
                        (List.filter (fun x => x =? t) (graph_get graph q))) ps).
Proof.
  revert counts. induction ps as [|p ps IH]; intros counts;
    cbn [fold_left flat_map].
  - unfold py_len. cbn. lia.
  - rewrite IH, count_inner. unfold py_len.
    rewrite length_app, length_map. lia.
Qed.

(** Each entry of [incoming_values] counts the edges that start in
    [pages] and end at that page. *)
Lemma incoming_values_in_links :
  incoming_values graph pages =
  map (fun p => py_len (in_links graph pages p)) (elements pages).
Proof.
  unfold incoming_values, incoming_counts. apply map_ext. intros p.
  rewrite count_outer, lookup_empty. reflexivity.
Qed.

End CountFacts.

(** The graph without the edges that point to [t]. *)
Definition drop_target (t : Z) (graph : gmap Z (list Z)) : gmap Z (list Z) :=
  List.filter (fun x => negb (x =? t)) <$> graph.

Lemma graph_get_drop_target (t : Z) (graph : gmap Z (list Z)) (q : Z) :
  graph_get (drop_target t graph) q =
  List.filter (fun x => negb (x =? t)) (graph_get graph q).
Proof.
  unfold graph_get, drop_target. rewrite lookup_fmap.
  destruct (graph !! q); reflexivity.
Qed.

Lemma in_links_drop_target (t : Z) (graph : gmap Z (list Z)) (pages : gset Z)
      (p : Z) :
  p <> t -> in_links (drop_target t graph) pages p = in_links graph pages p.
Proof.
  intros Hne. unfold in_links. apply flat_map_ext. intros q.
  rewrite graph_get_drop_target. f_equal.
  induction (graph_get graph q) as [|x l IH]; [reflexivity|].
  cbn [List.filter]. destruct (Z.eqb_spec x t) as [->|Hx]; cbn [negb List.filter].
  - destruct (Z.eqb_spec t p); [congruence|exact IH].
  - destruct (x =? p); [f_equal|]; exact IH.
Qed.

Lemma incoming_values_drop_target (t : Z) (graph : gmap Z (list Z))
      (pages : gset Z) :
  t ∉ pages ->
  incoming_values (drop_target t graph) pages = incoming_values graph pages.
Proof.
  intros Ht. rewrite !incoming_values_in_links.
  apply map_ext_in. intros p Hp. rewrite in_links_drop_target; [reflexivity|].
  intros ->. apply Ht, elem_of_elements, list_elem_of_In, Hp.
Qed.

(** ** Facts about the string built-ins *)

Local Open Scope string_scope.

Fixpoint all_digits (s : string) : bool :=
  match s with
  | EmptyString => true
  | String c s' => is_digit c && all_digits s'
  end.

(** A name of the form <digits>.html: at least one digit, then [.html]. *)
Definition is_page_name (s : string) : bool :=
  let '(ds, rest) := span_digits s in
  negb (is_empty ds) && String.eqb rest ".html".

(** The sign and the rest of a stripped numeral. *)
Definition split_sign (body : string) : Z * string :=
  match body with
  | String "+" r => (1, r)
  | String "-" r => (-1, r)
  | _ => (1, body)
  end.

Lemma py_int_unfold (s : string) :
  py_int s =
  match parse_digits 0 false (snd (split_sign (rstrip (lstrip s)))) with
  | Some v => Ok (fst (split_sign (rstrip (lstrip s))) * v)
  | None => Raise ValueError
  end.
Proof.
  unfold py_int, split_sign.
  destruct (rstrip (lstrip s)) as [|[[] [] [] [] [] [] [] []] r]; reflexivity.
Qed.


Lemma digit_not_space (c : ascii) : is_digit c = true -> is_space c = false.
Proof.
  unfold is_digit, is_space. cbv zeta. intros H.
  apply andb_true_iff in H as [H1 H2].
  apply Nat.leb_le in H1. apply Nat.leb_le in H2.
  apply orb_false_iff. split.
  - apply andb_false_iff. right. apply Nat.leb_gt. lia.
  - apply Nat.eqb_neq. lia.
Qed.


Lemma split_sign_digit (c : ascii) (r : string) :
  is_digit c = true -> split_sign (String c r) = (1%Z, String c r).
Proof.
  destruct c as [[] [] [] [] [] [] [] []]; intros H;
    first [discriminate H | reflexivity].
Qed.

Lemma digit_not_dot (c : ascii) (s1 s2 : string) :
  is_digit c = true -> String.prefix (String "." s1) (String c s2) = false.
Proof.
  intros H. cbn [String.prefix]. destruct (ascii_dec "." c) as [<-|]; [|reflexivity].
  discriminate H.
Qed.

Lemma lstrip_digits (s : string) : all_digits s = true -> lstrip s = s.
Proof.
  destruct s as [|c s]; [reflexivity|]. cbn [all_digits lstrip]. intros H.
  apply andb_true_iff in H as [H _]. rewrite (digit_not_space c H). reflexivity.
Qed.

Lemma rstrip_digits (s : string) : all_digits s = true -> rstrip s = s.
Proof.
  induction s as [|c s IH]; [reflexivity|]. cbn [all_digits rstrip]. intros H.
  apply andb_true_iff in H as [H Hs].
  rewrite (digit_not_space c H), (IH Hs). reflexivity.
Qed.



Lemma remove_html_digits (ds : string) :
  all_digits ds = true -> remove_html (ds ++ ".html") = ds.
Proof.
  unfold remove_html. induction ds as [|c ds IH]; intros H; [reflexivity|].
  cbn [all_digits] in H. apply andb_true_iff in H as [Hc Hs].
  change (String c ds ++ ".html") with (String c (ds ++ ".html")).
  cbn [remove_html_from].
  rewrite (digit_not_dot c _ _ Hc), (IH Hs). reflexivity.
Qed.


Lemma is_empty_false (s : string) : is_empty s = false <-> s <> EmptyString.
Proof. destruct s; cbn; split; congruence. Qed.





(** ** Facts about build_graph *)


Lemma add_page_ok (acc : gset Z) (name : string) (v : Z) :
  page_number name = Ok v -> add_page acc name = Ok ({[v]} ∪ acc).
Proof. unfold add_page. intros ->. reflexivity. Qed.







(** ** Decidable side conditions and sample inputs *)

Local Open Scope Z_scope.

Definition closed_graphb (graph : gmap Z (list Z)) (pages : gset Z) : bool :=
  forallb (fun q => forallb (fun t => bool_decide (t ∈ pages)) (graph_get graph q))
          (elements pages).

Lemma closed_graphb_spec graph pages :
  closed_graphb graph pages = true -> closed_graph graph pages.
Proof.
  unfold closed_graphb, closed_graph. rewrite forallb_forall.
  intros H q t Hq Ht.
  specialize (H q). rewrite forallb_forall in H.
  assert (bool_decide (t ∈ pages) = true) as Hb.
  { apply H; [apply list_elem_of_In, elem_of_elements, Hq|].
    apply list_elem_of_In, Ht. }
  apply bool_decide_eq_true in Hb. exact Hb.
Qed.

Lemma nonempty_by_elements (pages : gset Z) : elements pages <> [] -> pages <> ∅.
Proof. intros H ->. apply H. apply elements_empty. Qed.

(** Damping factor and tolerance of the program's defaults. *)
Definition default_damping : Q := 85 # 100.
Definition default_tolerance : Q := 5 # 1000.

(** Pages 0..3 standing for A..D of the first test graph:
    A -> B, C;  B -> C;  C -> A;  D -> C. *)
Definition test_graph : gmap Z (list Z) :=
  <[0 := [1; 2]]> (<[1 := [2]]> (<[2 := [0]]> (<[3 := [2]]> ∅))).
Definition test_pages : gset Z := {[0; 1; 2; 3]}.

(** One page that links to a page outside the corpus. *)
Definition phantom_graph : gmap Z (list Z) := <[0 := [1]]> ∅.
Definition phantom_pages : gset Z := {[0]}.

(** Page 0 links twice to page 1, page 1 links back. *)
Definition multi_graph : gmap Z (list Z) := <[0 := [1; 1]]> (<[1 := [0]]> ∅).
Definition multi_pages : gset Z := {[0; 1]}.

(** The pages with at least one edge to [p], each listed once: the literal
    reading of "the pages that have an edge to [p]". *)
Definition linking_pages (graph : gmap Z (list Z)) (pages : gset Z) (p : Z)
  : list Z :=
  List.filter (fun q => bool_decide (p ∈ graph_get graph q)
                        && (0 <? out_degree graph q))
              (elements pages).

(** The update formula with one term per linking page. *)
Definition rank_by_linking_pages (graph : gmap Z (list Z)) (pages : gset Z)
           (damping : Q) (pagerank : list (Z * Q)) (p : Z) : Q :=
  ((1 - damping) / n_pages pages
   + damping * dangling_mass graph pages pagerank / n_pages pages
   + damping * Qsum_over (contribution graph pagerank)
                         (linking_pages graph pages p))%Q.

Lemma filter_eq_NoDup (p : Z) (l : list Z) :
  NoDup l ->
  List.filter (fun t => t =? p) l = if bool_decide (p ∈ l) then [p] else [].
Proof.
  induction l as [|x l IH]; intros Hnd; [reflexivity|].
  apply NoDup_cons in Hnd as [Hx Hnd]. cbn [List.filter].
  destruct (Z.eqb_spec x p) as [->|Hne].
  - rewrite bool_decide_eq_true_2 by (left).
    rewrite (IH Hnd), bool_decide_eq_false_2 by exact Hx. reflexivity.
  - rewrite (IH Hnd). destruct (decide (p ∈ l)) as [Hin|Hnin].
    + rewrite !bool_decide_eq_true_2; [reflexivity|right; exact Hin|exact Hin].
    + rewrite !bool_decide_eq_false_2; [reflexivity| |exact Hnin].
      intros H. apply elem_of_cons in H as [H|H]; [congruence|contradiction].
Qed.

(** When no page links twice to the same page, the edges into [p] are the
    pages that link to [p]. *)
Lemma in_links_simple_graph graph pages (p : Z) :
  (forall q, q ∈ pages -> NoDup (graph_get graph q)) ->
  in_links graph pages p = linking_pages graph pages p.
Proof.
  intros Hnd. unfold in_links, linking_pages.
  assert (forall q, q ∈ elements pages -> NoDup (graph_get graph q)) as H.
  { intros q Hq. apply Hnd, elem_of_elements, Hq. }
  clear Hnd. induction (elements pages) as [|q l IH]; [reflexivity|].
  cbn [flat_map List.filter]. rewrite IH by (intros x Hx; apply H; right; exact Hx).
  rewrite (filter_eq_NoDup p _ (H q ltac:(left))).
  destruct (decide (p ∈ graph_get graph q)) as [Hin|Hnin].
  - rewrite bool_decide_eq_true_2 by exact Hin.
    pose proof (out_degree_pos graph p q Hin) as Hpos.
    apply Z.ltb_lt in Hpos. rewrite Hpos. reflexivity.
  - rewrite bool_decide_eq_false_2 by exact Hnin. reflexivity.
Qed.

(** ** The tests of [test_pagerank.py], replayed on the model *)

(** Test 4: three pages without links keep the rank 1/3 each. *)
Example test_all_dangling :
  exists pagerank,
    compute_pagerank ∅ {[0; 1; 2]} default_damping default_tolerance 100
    = Some (Ok (pagerank, 1)) /\
    Forall (fun r => r == 1 # 3)%Q (dict_values pagerank).
Proof.
  eexists. split; [vm_compute; reflexivity|].
  repeat constructor.
Qed.

(** Test 1: page C (2) ends with the highest rank and the ranks sum to 1. *)
Example test_simple_graph :
  exists pagerank,
    compute_pagerank test_graph test_pages default_damping default_tolerance 100
    = Some (Ok (pagerank, 1)) /\
    (py_sum (dict_values pagerank) == 1)%Q /\
    Forall (fun p => rank_of pagerank p < rank_of pagerank 2)%Q [0; 1; 3].
Proof.
  eexists. split; [vm_compute; reflexivity|].
  split; [vm_compute; reflexivity|].
  repeat constructor.
Qed.

(** * The claims *)

(** C1 (as stated, refuted).  With one page that links outside the corpus
    the first iteration leaves a total rank of 3/20, which the engine
    returns after its second iteration: the sum does not stay near 1. *)
Lemma C1_mass_leaks_to_phantom_target :
  exists pagerank,
    pagerank_after phantom_graph phantom_pages default_damping 1 = Ok pagerank /\
    compute_pagerank phantom_graph phantom_pages default_damping
                     default_tolerance 100 = Some (Ok (pagerank, 2)) /\
    (py_sum (dict_values pagerank) == 3 # 20)%Q /\
    ~ (Qabs (py_sum (dict_values pagerank) - 1) < 1 # 1000)%Q.
Proof.
  eexists. split; [vm_compute; reflexivity|].
  split; [vm_compute; reflexivity|].
  split; [vm_compute; reflexivity|].
  vm_compute. discriminate.
Qed.

(** C1 (amended).  For every non-empty PageSet and every graph all of
    whose edge targets lie in PageSet, after any number [k] of iterations
    the rank vector exists and the sum of its values is exactly 1 in exact
    arithmetic, for every damping factor. *)
Theorem C1_mass_conserved_in_closed_graph
        (graph : gmap Z (list Z)) (pages : gset Z) (damping : Q) (k : nat) :
  pages <> ∅ -> closed_graph graph pages ->
  exists pagerank,
    pagerank_after graph pages damping k = Ok pagerank /\
    (py_sum (dict_values pagerank) == 1)%Q.
Proof.
  intros Hne Hcl.
  destruct (iterates_closed graph pages damping Hne k Hcl) as (pr & Hpr & _ & Ht).
  exists pr. split; [exact Hpr|exact Ht].
Qed.

Lemma C1_mass_conserved_witness :
  exists pagerank,
    pagerank_after test_graph test_pages default_damping 3 = Ok pagerank /\
    (py_sum (dict_values pagerank) == 1)%Q.
Proof.
  apply C1_mass_conserved_in_closed_graph.
  - apply nonempty_by_elements. vm_compute. discriminate.
  - apply closed_graphb_spec. vm_compute. reflexivity.
Defined.

(** C2 (as stated, refuted).  When page 0 links twice to page 1, the
    program gives page 1 the rank 1/2, while the formula with one term
    per linking page gives 23/80. *)
Lemma C2_repeated_link_counts_twice :
  exists new_pagerank change r,
    iteration_body multi_graph multi_pages default_damping
                   (build_incoming multi_graph multi_pages)
                   (dangling_nodes multi_graph multi_pages)
                   (uniform multi_pages) = Ok (new_pagerank, change) /\
    dict_get new_pagerank 1 = Ok r /\
    (r == 1 # 2)%Q /\
    (rank_by_linking_pages multi_graph multi_pages default_damping
                           (uniform multi_pages) 1 == 23 # 80)%Q /\
    ~ (r == rank_by_linking_pages multi_graph multi_pages default_damping
                                  (uniform multi_pages) 1)%Q.
Proof.
  eexists _, _, _. split; [vm_compute; reflexivity|].
  split; [vm_compute; reflexivity|].
  split; [vm_compute; reflexivity|].
  split; [vm_compute; reflexivity|].
  vm_compute. discriminate.
Qed.

(** C2 (amended).  The engine starts from the uniform vector 1/n, and in
    each iteration the new rank of every page p of PageSet equals
    (1-d)/n + d*danglingSum/n + d * the sum, over the edges q -> p whose
    source q is in PageSet (one term per occurrence of p in graph[q], so a
    page that links k times to p counts k times), of rank[q]/outDegree(q),
    where danglingSum is the sum of the ranks of the pages of PageSet
    without outgoing edges and every rank is read from the previous
    vector.  Every such q has outDegree(q) > 0.  When no page of PageSet
    links twice to the same page, the edges into p are just the pages that
    link to p. *)
Theorem C2_rank_update
        (graph : gmap Z (list Z)) (pages : gset Z) (damping : Q)
        (pagerank new_pagerank : list (Z * Q)) (change : Q) (p : Z) :
  pages <> ∅ ->
  dict_keys pagerank = elements pages ->
  iteration_body graph pages damping (build_incoming graph pages)
                 (dangling_nodes graph pages) pagerank
  = Ok (new_pagerank, change) ->
  p ∈ pages ->
  initial_pagerank pages = Ok (uniform pages) /\
  dict_get (uniform pages) p = Ok (1 / n_pages pages)%Q /\
  (forall q, q ∈ in_links graph pages p <-> q ∈ pages /\ p ∈ graph_get graph q) /\
  (forall q, q ∈ in_links graph pages p -> 0 < out_degree graph q) /\
  ((forall q, q ∈ pages -> NoDup (graph_get graph q)) ->
   in_links graph pages p = linking_pages graph pages p) /\
  exists r,
    dict_get new_pagerank p = Ok r /\
    (r == (1 - damping) / n_pages pages
          + damping * Qsum_over (rank_of pagerank) (dangling_nodes graph pages)
            / n_pages pages
          + damping * Qsum_over
                        (fun q => rank_of pagerank q
                                  / inject_Z (out_degree graph q))
                        (in_links graph pages p))%Q.
Proof.
  intros Hne Hkeys Hbody Hp.
  split; [apply initial_pagerank_uniform, Hne|].
  split.
  { rewrite dict_get_rank_of.
    - rewrite (rank_of_uniform pages p Hp). reflexivity.
    - rewrite uniform_keys. apply elem_of_elements, Hp. }
  split; [intros q; apply in_links_source|].
  split.
  { intros q Hq. apply in_links_source in Hq as [_ Hq].
    exact (out_degree_pos graph _ _ Hq). }
  split; [apply in_links_simple_graph|].
  rewrite (iteration_body_step graph pages damping pagerank Hne Hkeys) in Hbody.
  destruct (change_of pagerank (step graph pages damping pagerank))
    as [c|] eqn:Ec; [|discriminate].
  cbn in Hbody. injection Hbody as <- _.
  exists (rank_of (step graph pages damping pagerank) p). split.
  - apply dict_get_rank_of. rewrite step_keys. apply elem_of_elements, Hp.
  - rewrite (rank_of_step graph pages damping pagerank Hne Hkeys p Hp).
    unfold next_rank, dangling_mass, contribution.
    pose proof (n_pages_pos pages Hne). field. lra.
Qed.

Lemma C2_rank_update_witness :
  exists r,
    dict_get (step test_graph test_pages default_damping (uniform test_pages)) 2
    = Ok r /\
    (r == (1 - default_damping) / n_pages test_pages
          + default_damping
            * Qsum_over (rank_of (uniform test_pages))
                        (dangling_nodes test_graph test_pages)
            / n_pages test_pages
          + default_damping
            * Qsum_over (fun q => rank_of (uniform test_pages) q
                                  / inject_Z (out_degree test_graph q))
                        (in_links test_graph test_pages 2))%Q.
Proof.
  refine (proj2 (proj2 (proj2 (proj2 (proj2
    (C2_rank_update test_graph test_pages default_damping (uniform test_pages)
       (step test_graph test_pages default_damping (uniform test_pages))
       (Qabs (total (step test_graph test_pages default_damping
                          (uniform test_pages))
              - total (uniform test_pages))
        / total (uniform test_pages))%Q
       2 _ _ _ _)))))).
  - apply nonempty_by_elements. vm_compute. discriminate.
  - vm_compute. reflexivity.
  - vm_compute. reflexivity.
  - apply elem_of_elements. vm_compute. repeat constructor.
Defined.

(** ** Consequences of the loop specification *)

Lemma converged_not_both graph pages damping tolerance (j : nat) :
  converged_at graph pages damping tolerance j ->
  not_converged_at graph pages damping tolerance j -> False.
Proof.
  intros (c & Hc & Hlt) (c' & Hc' & Hnlt).
  assert (c = c') by congruence. subst c'. contradiction.
Qed.

Lemma size_elements (pages : gset Z) : size pages = length (elements pages).
Proof. reflexivity. Qed.

(** In a closed graph every computed change is 0. *)
Lemma change_at_closed graph pages damping (k : nat) :
  pages <> ∅ -> closed_graph graph pages ->
  exists c, change_at graph pages damping k = Ok c /\ (c == 0)%Q.
Proof.
  intros Hne Hcl.
  destruct (iterates_closed graph pages damping Hne k Hcl) as (pr & Hpr & Hk & Ht).
  destruct (pagerank_after_S graph pages damping Hne k pr Hpr Hk) as [HS Hc];
    [lra|].
  eexists. split; [exact Hc|].
  assert (total (step graph pages damping pr) - total pr == 0)%Q as E.
  { rewrite (total_step_closed graph pages damping pr Hne Hk Hcl), Ht. ring. }
  rewrite E, Ht. reflexivity.
Qed.

(** The change of every iteration is the relative change of the sums. *)
Lemma change_at_formula graph pages damping (k : nat) :
  pages <> ∅ -> regular graph pages damping ->
  exists old new,
    pagerank_after graph pages damping k = Ok old /\
    pagerank_after graph pages damping (S k) = Ok new /\
    change_at graph pages damping k =
    Ok (Qabs (py_sum (dict_values new) - py_sum (dict_values old))
        / py_sum (dict_values old))%Q.
Proof.
  intros Hne Hreg. destruct (Hreg k) as (pr & Hpr & Hk & Ht).
  destruct (pagerank_after_S graph pages damping Hne k pr Hpr Hk Ht) as [HS Hc].
  exists pr, (step graph pages damping pr). repeat split; assumption.
Qed.

(** ** The claims about the engine *)

(** C3.  For valid parameters on a non-empty PageSet the engine returns;
    the change computed by each iteration is
    |sum new - sum old| / sum old; the iteration count [k] it returns is
    the number of body executions performed, with 1 <= k <= maxIter; the
    vector returned is the one after [k] iterations; no iteration before the
    last met the tolerance; and the loop was left by [break] exactly when
    the last iteration met the tolerance, otherwise [k = maxIter]. *)
Theorem C3_stopping_rule
        (graph : gmap Z (list Z)) (pages : gset Z) (damping tolerance : Q)
        (max_iterations : Z) :
  pages <> ∅ -> (0 < damping)%Q -> (damping < 1)%Q -> 1 <= max_iterations ->
  (forall k, exists old new,
      pagerank_after graph pages damping k = Ok old /\
      pagerank_after graph pages damping (S k) = Ok new /\
      change_at graph pages damping k =
      Ok (Qabs (py_sum (dict_values new) - py_sum (dict_values old))
          / py_sum (dict_values old))%Q) /\
  exists r,
    pagerank_run graph pages damping tolerance max_iterations
                 (Z.to_nat max_iterations) = Some (Ok r) /\
    compute_pagerank graph pages damping tolerance max_iterations
    = Some (Ok (run_pagerank r, run_iteration r)) /\
    run_iteration r = Z.of_nat (run_performed r) /\
    1 <= run_iteration r <= max_iterations /\
    pagerank_after graph pages damping (run_performed r) = Ok (run_pagerank r) /\
    (forall j, (S j < run_performed r)%nat ->
               not_converged_at graph pages damping tolerance j) /\
    (run_break r = true <->
     converged_at graph pages damping tolerance (Nat.pred (run_performed r))) /\
    (run_break r = false -> run_iteration r = max_iterations).
Proof.
  intros Hne Hlo Hhi Hmi.
  pose proof (regular_of_valid_damping graph pages damping Hne Hlo Hhi) as Hreg.
  split; [intros k; apply change_at_formula; assumption|].
  destruct (compute_pagerank_spec graph pages damping tolerance max_iterations
              Hne Hreg) as (r & Hc & Hr & Hi & Hle & Hafter & Hprev & Hend).
  exists r. rewrite Z.max_r in * by lia.
  assert (1 <= run_iteration r) as H1.
  { destruct (run_break r).
    - destruct Hend as (j & Hj & _). lia.
    - destruct Hend as [-> _]. exact Hmi. }
  repeat split; try assumption.
  - intros Hb. rewrite Hb in Hend. destruct Hend as (j & -> & Hj). exact Hj.
  - intros Hconv. destruct (run_break r); [reflexivity|].
    destruct Hend as [_ Hall]. exfalso.
    apply (converged_not_both _ _ _ _ _ Hconv), Hall. lia.
  - intros Hb. rewrite Hb in Hend. apply Hend.
Qed.

Lemma C3_stopping_rule_witness :
  exists r,
    pagerank_run phantom_graph phantom_pages default_damping default_tolerance 100
                 (Z.to_nat 100) = Some (Ok r) /\
    compute_pagerank phantom_graph phantom_pages default_damping
                     default_tolerance 100
    = Some (Ok (run_pagerank r, run_iteration r)) /\
    run_iteration r = Z.of_nat (run_performed r) /\
    1 <= run_iteration r <= 100 /\
    pagerank_after phantom_graph phantom_pages default_damping (run_performed r)
    = Ok (run_pagerank r) /\
    (forall j, (S j < run_performed r)%nat ->
               not_converged_at phantom_graph phantom_pages default_damping
                                default_tolerance j) /\
    (run_break r = true <->
     converged_at phantom_graph phantom_pages default_damping default_tolerance
                  (Nat.pred (run_performed r))) /\
    (run_break r = false -> run_iteration r = 100).
Proof.
  refine (proj2 (C3_stopping_rule phantom_graph phantom_pages default_damping
                                  default_tolerance 100 _ _ _ _)).
  - apply nonempty_by_elements. vm_compute. discriminate.
  - reflexivity.
  - reflexivity.
  - lia.
Defined.

(** C4 (as stated, refuted).  No function of the returned pair tells
    whether the loop was left by convergence: with one page linking outside
    the corpus and maxIter = 1, the tolerances 5/1000 (not met) and 9/10
    (met) give the same pair. *)
Lemma C4_result_has_no_convergence_flag :
  ~ (exists flag : list (Z * Q) * Z -> bool,
       forall graph pages damping tolerance max_iterations r,
         pagerank_run graph pages damping tolerance max_iterations
                      (Z.to_nat max_iterations) = Some (Ok r) ->
         compute_pagerank graph pages damping tolerance max_iterations
         = Some (Ok (run_pagerank r, run_iteration r)) /\
         flag (run_pagerank r, run_iteration r) = run_break r).
Proof.
  intros [flag H].
  pose (v := step phantom_graph phantom_pages default_damping
                  (uniform phantom_pages)).
  assert (pagerank_run phantom_graph phantom_pages default_damping
                       default_tolerance 1 (Z.to_nat 1)
          = Some (Ok (mkRun v 1 false 1))) as E1 by (vm_compute; reflexivity).
  assert (pagerank_run phantom_graph phantom_pages default_damping
                       (9 # 10) 1 (Z.to_nat 1)
          = Some (Ok (mkRun v 1 true 1))) as E2 by (vm_compute; reflexivity).
  destruct (H _ _ _ _ _ _ E1) as [_ F1].
  destruct (H _ _ _ _ _ _ E2) as [_ F2].
  cbn [run_pagerank run_iteration run_break] in F1, F2. congruence.
Qed.

(** C4 (amended).  The engine returns the pair (final rank vector,
    iteration count) and nothing else.  Non-convergence is not a failure:
    for valid parameters on a non-empty PageSet, when no iteration meets
    the tolerance the engine returns normally the vector after maxIter
    iterations together with the count maxIter. *)
Theorem C4_non_convergence_is_not_a_failure
        (graph : gmap Z (list Z)) (pages : gset Z) (damping tolerance : Q)
        (max_iterations : Z) :
  pages <> ∅ -> (0 < damping)%Q -> (damping < 1)%Q -> 1 <= max_iterations ->
  (forall j, (j < Z.to_nat max_iterations)%nat ->
             not_converged_at graph pages damping tolerance j) ->
  exists pagerank,
    compute_pagerank graph pages damping tolerance max_iterations
    = Some (Ok (pagerank, max_iterations)) /\
    pagerank_after graph pages damping (Z.to_nat max_iterations) = Ok pagerank.
Proof.
  intros Hne Hlo Hhi Hmi Hnever.
  pose proof (regular_of_valid_damping graph pages damping Hne Hlo Hhi) as Hreg.
  destruct (compute_pagerank_spec graph pages damping tolerance max_iterations
              Hne Hreg) as (r & Hc & Hr & Hi & Hle & Hafter & Hprev & Hend).
  rewrite Z.max_r in * by lia.
  assert (run_iteration r = max_iterations) as Hk.
  { destruct (run_break r); [|apply Hend].
    destruct Hend as (j & Hj & Hconv). exfalso.
    apply (converged_not_both _ _ _ _ _ Hconv), Hnever. lia. }
  exists (run_pagerank r). rewrite Hk in Hc. split; [exact Hc|].
  replace (Z.to_nat max_iterations) with (run_performed r) by lia.
  exact Hafter.
Qed.

Lemma C4_non_convergence_witness :
  exists pagerank,
    compute_pagerank phantom_graph phantom_pages default_damping
                     default_tolerance 1 = Some (Ok (pagerank, 1)) /\
    pagerank_after phantom_graph phantom_pages default_damping (Z.to_nat 1)
    = Ok pagerank.
Proof.
  apply C4_non_convergence_is_not_a_failure.
  - apply nonempty_by_elements. vm_compute. discriminate.
  - reflexivity.
  - reflexivity.
  - lia.
  - intros j Hj. assert (j = 0%nat) as -> by (cbn in Hj; lia).
    eexists. split; [vm_compute; reflexivity|].
    vm_compute. discriminate.
Defined.

(** C5.  On a non-empty PageSet with a graph whose edge targets all lie in
    PageSet, every iterate has total exactly 1, the change computed by the
    first iteration is 0, and for every positive tolerance (and maxIter
    >= 1, any damping factor) the engine returns the vector of the first
    iteration with iteration count 1. *)
Theorem C5_closed_graph_stops_after_one_iteration
        (graph : gmap Z (list Z)) (pages : gset Z) (damping tolerance : Q)
        (max_iterations : Z) :
  pages <> ∅ -> closed_graph graph pages ->
  (0 < tolerance)%Q -> 1 <= max_iterations ->
  (forall k, exists pagerank,
      pagerank_after graph pages damping k = Ok pagerank /\
      (py_sum (dict_values pagerank) == 1)%Q) /\
  (exists c, change_at graph pages damping 0 = Ok c /\ (c == 0)%Q) /\
  compute_pagerank graph pages damping tolerance max_iterations
  = Some (Ok (step graph pages damping (uniform pages), 1)).
Proof.
  intros Hne Hcl Htol Hmi.
  split.
  { intros k.
    destruct (iterates_closed graph pages damping Hne k Hcl) as (pr & Hpr & _ & Ht).
    exists pr. split; assumption. }
  pose proof (change_at_closed graph pages damping 0 Hne Hcl) as Hc0.
  split; [exact Hc0|].
  pose proof (regular_of_closed graph pages damping Hne Hcl) as Hreg.
  destruct (compute_pagerank_spec graph pages damping tolerance max_iterations
              Hne Hreg) as (r & Hc & Hr & Hi & Hle & Hafter & Hprev & Hend).
  rewrite Z.max_r in * by lia.
  assert (converged_at graph pages damping tolerance 0) as Hconv.
  { destruct Hc0 as (c & Ec & Hz). exists c. split; [exact Ec|].
    rewrite Hz. exact Htol. }
  assert (run_performed r = 1%nat) as Hp.
  { destruct (run_performed r) as [|[|m]] eqn:E; [|reflexivity|].
    - destruct (run_break r).
      + destruct Hend as (j & Hj & _). discriminate.
      + destruct Hend as [Hend _]. cbn in Hi. lia.
    - exfalso. apply (converged_not_both _ _ _ _ _ Hconv), Hprev. lia. }
  rewrite Hp in *. cbn in Hi.
  destruct (iterates_closed graph pages damping Hne 0 Hcl) as (u & Hu & Hk & Ht).
  destruct (pagerank_after_S graph pages damping Hne 0 u Hu Hk) as [HS _]; [lra|].
  cbn [pagerank_after] in Hu.
  rewrite (initial_pagerank_uniform pages Hne) in Hu. injection Hu as <-.
  rewrite Hc, Hi. do 3 f_equal. congruence.
Qed.

Lemma C5_closed_graph_witness :
  compute_pagerank test_graph test_pages default_damping default_tolerance 100
  = Some (Ok (step test_graph test_pages default_damping (uniform test_pages), 1)).
Proof.
  refine (proj2 (proj2
    (C5_closed_graph_stops_after_one_iteration
       test_graph test_pages default_damping default_tolerance 100 _ _ _ _))).
  - apply nonempty_by_elements. vm_compute. discriminate.
  - apply closed_graphb_spec. vm_compute. reflexivity.
  - reflexivity.
  - lia.
Defined.

(** The ranks returned after that single iteration are not a fixed point:
    on the test graph the second iteration would still move page 2. *)
Lemma closed_graph_ranks_still_moving :
  exists v1 v2 r1 r2,
    pagerank_after test_graph test_pages default_damping 1 = Ok v1 /\
    pagerank_after test_graph test_pages default_damping 2 = Ok v2 /\
    dict_get v1 2 = Ok r1 /\ dict_get v2 2 = Ok r2 /\ ~ (r1 == r2)%Q.
Proof.
  eexists _, _, _, _.
  split; [vm_compute; reflexivity|]. split; [vm_compute; reflexivity|].
  split; [vm_compute; reflexivity|]. split; [vm_compute; reflexivity|].
  vm_compute. discriminate.
Qed.




(** Outside closed graphs an invalid damping factor can make the engine
    raise: with damping 2 and an edge leaving the corpus the total drops to
    0 after the first iteration and the second one divides by it. *)
Example invalid_damping_can_raise :
  compute_pagerank (<[0 := [7]]> (<[1 := [0]]> ∅)) multi_pages (2 # 1)
                   default_tolerance 100
  = Some (Raise ZeroDivisionError).
Proof. vm_compute. reflexivity. Qed.

(** C8.  For every non-empty PageSet, every graph (in particular one with
    edges to pages outside PageSet) and a damping factor in (0,1), the
    engine returns a result, whose rank vector has an entry for each page
    of PageSet and for no other identifier. *)
Theorem C8_only_pages_receive_a_rank
        (graph : gmap Z (list Z)) (pages : gset Z) (damping tolerance : Q)
        (max_iterations : Z) :
  pages <> ∅ -> (0 < damping)%Q -> (damping < 1)%Q ->
  exists pagerank k,
    compute_pagerank graph pages damping tolerance max_iterations
    = Some (Ok (pagerank, k)) /\
    dict_keys pagerank = elements pages /\
    (forall p, p ∈ pages -> exists r, dict_get pagerank p = Ok r) /\
    (forall t, t ∉ pages -> dict_get pagerank t = Raise KeyError).
Proof.
  intros Hne Hlo Hhi.
  pose proof (regular_of_valid_damping graph pages damping Hne Hlo Hhi) as Hreg.
  destruct (compute_pagerank_spec graph pages damping tolerance max_iterations
              Hne Hreg) as (r & Hc & Hr & Hi & Hle & Hafter & Hprev & Hend).
  destruct (Hreg (run_performed r)) as (pr & Hpr & Hk & _).
  assert (pr = run_pagerank r) by congruence. subst pr.
  exists (run_pagerank r), (run_iteration r).
  split; [exact Hc|]. split; [exact Hk|]. split.
  - intros p Hp. eexists. apply dict_get_rank_of.
    rewrite Hk. apply elem_of_elements, Hp.
  - intros t Ht. apply dict_get_key_error. rewrite Hk.
    intros Hin. apply Ht, elem_of_elements, Hin.
Qed.

Lemma C8_only_pages_witness :
  exists pagerank k,
    compute_pagerank phantom_graph phantom_pages default_damping
                     default_tolerance 100 = Some (Ok (pagerank, k)) /\
    dict_keys pagerank = elements phantom_pages /\
    (forall p, p ∈ phantom_pages -> exists r, dict_get pagerank p = Ok r) /\
    (forall t, t ∉ phantom_pages -> dict_get pagerank t = Raise KeyError).
Proof.
  apply C8_only_pages_receive_a_rank.
  - apply nonempty_by_elements. vm_compute. discriminate.
  - reflexivity.
  - reflexivity.
Defined.

(** ** The claims about the graph builder and the statistics *)

Local Open Scope string_scope.



(** A document of page 12 with two links, the first one repeated. *)
Definition sample_document : string :=
  "<p>" ++ anchor_open ++ "3" ++ anchor_close ++ "x</a>"
  ++ anchor_open ++ "40" ++ anchor_close ++ anchor_open ++ "3" ++ anchor_close.


(** The builder on that input: the graph keeps the repeated link. *)
Example build_graph_sample :
  exists graph incoming pages,
    build_graph [("12.html", sample_document); ("3.html", EmptyString)]
    = Ok (graph, incoming, pages) /\
    graph_get graph 12 = [3; 40; 3]%Z /\ graph_get graph 3 = [] /\
    graph_get incoming 3 = [12; 12]%Z /\ elements pages = [3; 12]%Z.
Proof.
  eexists _, _, _. split; [vm_compute; reflexivity|].
  repeat split; vm_compute; reflexivity.
Qed.

Local Open Scope Z_scope.

(** C9 (as stated, refuted).  There is no graph in which the edges to a
    target outside PageSet are counted: removing them never changes the
    in-degree values from which the statistics are computed. *)
Lemma C9_phantom_edges_are_never_counted :
  ~ (exists (graph : gmap Z (list Z)) (pages : gset Z) (t : Z),
        (t ∉ pages) /\
        (incoming_values graph pages
         <> incoming_values (drop_target t graph) pages)).
Proof.
  intros (graph & pages & t & Ht & Hne).
  apply Hne. symmetry. apply incoming_values_drop_target, Ht.
Qed.

(** C9 (amended).  The in-degree distribution has one value per page of
    PageSet, the number of edges from PageSet pages to that page.  Edges
    whose target is outside PageSet are tallied by the intermediate counter
    but do not contribute: without them the in-degree values, and hence
    the incoming statistics, are the same. *)
Theorem C9_in_degree_ignores_phantom_targets
        (single_point : bool) (graph : gmap Z (list Z)) (pages : gset Z)
        (t : Z) :
  t ∉ pages ->
  incoming_values graph pages
  = map (fun p => py_len (in_links graph pages p)) (elements pages) /\
  incoming_values (drop_target t graph) pages = incoming_values graph pages /\
  forall outgoing incoming,
    compute_statistics single_point graph pages = Ok (outgoing, incoming) ->
    describe single_point (incoming_values (drop_target t graph) pages)
    = Ok incoming.
Proof.
  intros Ht.
  split; [apply incoming_values_in_links|].
  split; [apply incoming_values_drop_target, Ht|].
  intros outgoing incoming. unfold compute_statistics.
  rewrite (incoming_values_drop_target t graph pages Ht).
  destruct (describe single_point (outgoing_counts graph pages)); [|discriminate].
  cbn [mbind result_bind].
  destruct (describe single_point (incoming_values graph pages)); [|discriminate].
  cbn [mbind result_bind mret result_ret]. intros [= _ ->]. reflexivity.
Qed.

(** A page that links once inside and once outside the corpus. *)
Definition leaky_graph : gmap Z (list Z) := <[0 := [1; 7]]> (<[1 := [0]]> ∅).

Lemma C9_in_degree_witness :
  incoming_values leaky_graph multi_pages
  = map (fun p => py_len (in_links leaky_graph multi_pages p))
        (elements multi_pages) /\
  incoming_values (drop_target 7 leaky_graph) multi_pages
  = incoming_values leaky_graph multi_pages /\
  forall outgoing incoming,
    compute_statistics false leaky_graph multi_pages = Ok (outgoing, incoming) ->
    describe false (incoming_values (drop_target 7 leaky_graph) multi_pages)
    = Ok incoming.
Proof.
  apply C9_in_degree_ignores_phantom_targets.
  rewrite <- elem_of_elements. vm_compute. intros H.
  repeat (apply elem_of_cons in H as [H|H]; [discriminate H|]).
  inversion H.
Defined.

(** C10 (as stated, refuted).  With a single page, a non-empty PageSet,
    the statistics fail where [statistics.quantiles] requires two data
    points; and on an empty PageSet the PageRank engine returns a result
    when maxIter is 0. *)
Lemma C10_single_page_statistics_fail :
  phantom_pages <> ∅ /\
  compute_statistics false phantom_graph phantom_pages = Raise StatisticsError /\
  compute_pagerank ∅ ∅ default_damping default_tolerance 0 = Some (Ok ([], 0)).
Proof.
  split; [apply nonempty_by_elements; vm_compute; discriminate|].
  split; vm_compute; reflexivity.
Qed.

(** C10 (amended).  If PageSet is empty the statistics fail with
    StatisticsError, and the PageRank engine fails with ZeroDivisionError
    whenever maxIter >= 1.  The statistics succeed for every PageSet with
    at least two pages; with exactly one page they succeed exactly when
    [statistics.quantiles] accepts a single data point. *)
Theorem C10_empty_and_small_page_sets
        (single_point : bool) (graph : gmap Z (list Z)) (pages : gset Z)
        (damping tolerance : Q) (max_iterations : Z) :
  (pages = ∅ ->
   compute_statistics single_point graph pages = Raise StatisticsError /\
   (1 <= max_iterations ->
    compute_pagerank graph pages damping tolerance max_iterations
    = Some (Raise ZeroDivisionError))) /\
  ((2 <= size pages)%nat ->
   is_ok (compute_statistics single_point graph pages) = true) /\
  (size pages = 1%nat ->
   is_ok (compute_statistics single_point graph pages) = single_point).
Proof.
  split; [|split].
  - intros ->. split.
    + unfold compute_statistics, outgoing_counts. rewrite elements_empty.
      reflexivity.
    + intros Hmi. unfold compute_pagerank, compute_pagerank_fuel, pagerank_run,
        initial_pagerank, dangling_nodes.
      rewrite elements_empty. cbn [mapM List.filter].
      destruct (Z.to_nat max_iterations) as [|fuel] eqn:E; [lia|].
      cbn [while_loop]. destruct (Z.ltb_spec 0 max_iterations); [|lia].
      unfold iteration_body. rewrite elements_empty. reflexivity.
  - intros Hsize. rewrite size_elements in Hsize. unfold compute_statistics.
    apply bind_is_ok; [|intros o; apply bind_is_ok; [|reflexivity]];
      apply describe_ok; unfold py_len, outgoing_counts, incoming_values;
      rewrite length_map; lia.
  - intros Hsize. rewrite size_elements in Hsize.
    unfold compute_statistics, outgoing_counts, incoming_values.
    destruct (elements pages) as [|x [|y l]]; try discriminate Hsize.
    cbn [map].
    pose proof (describe_single single_point (py_len (graph_get graph x))) as H1.
    pose proof (describe_single single_point
                  (default 0 (incoming_counts graph pages !! x))) as H2.
    destruct (describe single_point [py_len (graph_get graph x)]);
      cbn [is_ok] in H1; [|cbn; exact H1].
    cbn [mbind result_bind].
    destruct (describe single_point [default 0 (incoming_counts graph pages !! x)]);
      exact H2.
Qed.

Lemma C10_empty_and_small_witness :
  compute_statistics false test_graph ∅ = Raise StatisticsError /\
  compute_pagerank test_graph ∅ default_damping default_tolerance 100
  = Some (Raise ZeroDivisionError) /\
  is_ok (compute_statistics false test_graph test_pages) = true /\
  is_ok (compute_statistics true phantom_graph phantom_pages) = true.
Proof.
  pose proof (C10_empty_and_small_page_sets false test_graph ∅ default_damping
                default_tolerance 100) as [He _].
  pose proof (C10_empty_and_small_page_sets false test_graph test_pages
                default_damping default_tolerance 100) as (_ & H2 & _).
  pose proof (C10_empty_and_small_page_sets true phantom_graph phantom_pages
                default_damping default_tolerance 100) as (_ & _ & H1).
  destruct (He eq_refl) as [Hs Hp].
  split; [exact Hs|]. split; [apply Hp; lia|].
  split; [apply H2; vm_compute; lia|apply H1; vm_compute; reflexivity].
Defined.

(** * Further properties of the code *)

From Stdlib Require Import Sorted.

(** ** compute_pagerank on arbitrary inputs *)

Lemma dict_keys_nil (d : list (Z * Q)) : dict_keys d = [] -> d = [].
Proof. destruct d; [reflexivity|discriminate]. Qed.

(** The initial dictionary is always built: [1.0/n] is only evaluated when
    there is a page. *)
Lemma initial_pagerank_always (pages : gset Z) :
  initial_pagerank pages = Ok (uniform pages).
Proof.
  destruct (decide (pages = ∅)) as [->|Hne].
  - unfold initial_pagerank, uniform. rewrite elements_empty. reflexivity.
  - apply initial_pagerank_uniform, Hne.
Qed.

(** A body execution keeps the keys, and can only raise at the division
    by the old total. *)
Lemma iteration_body_outcome graph pages damping (pagerank : list (Z * Q)) :
  dict_keys pagerank = elements pages ->
  match iteration_body graph pages damping (build_incoming graph pages)
                       (dangling_nodes graph pages) pagerank with
  | Ok (new_pagerank, _) => dict_keys new_pagerank = elements pages
  | Raise e => e = ZeroDivisionError
  end.
Proof.
  intros Hk. destruct (decide (pages = ∅)) as [->|Hne].
  - rewrite elements_empty in Hk. apply dict_keys_nil in Hk. subst pagerank.
    unfold iteration_body, dangling_nodes. rewrite elements_empty. reflexivity.
  - rewrite (iteration_body_step graph pages damping pagerank Hne Hk).
    unfold change_of, py_div. destruct (Qeq_bool (total pagerank) 0);
      cbn; [reflexivity|apply step_keys].
Qed.

Lemma while_loop_outcome graph pages damping tolerance max_iterations
      (fuel : nat) (pagerank : list (Z * Q)) (iteration : Z) (performed : nat) :
  dict_keys pagerank = elements pages ->
  match while_loop graph pages damping tolerance max_iterations fuel
                   (build_incoming graph pages) (dangling_nodes graph pages)
                   pagerank iteration performed with
  | Some (Ok r) =>
      dict_keys (run_pagerank r) = elements pages /\
      iteration <= run_iteration r <= Z.max iteration max_iterations
  | Some (Raise e) => e = ZeroDivisionError
  | None => True
  end.
Proof.
  revert pagerank iteration performed.
  induction fuel as [|fuel IH]; intros pr i perf Hk; cbn [while_loop].
  - destruct (Z.ltb_spec i max_iterations); [exact I|].
    cbn [run_pagerank run_iteration]. split; [exact Hk|lia].
  - destruct (Z.ltb_spec i max_iterations) as [Hlt|Hge].
    + pose proof (iteration_body_outcome graph pages damping pr Hk) as Hb.
      destruct (iteration_body _ _ _ _ _ pr) as [[new c]|e]; [|exact Hb].
      destruct (Qlt_bool c tolerance).
      * cbn [run_pagerank run_iteration]. split; [exact Hb|lia].
      * specialize (IH new (i + 1) (S perf) Hb).
        destruct (while_loop _ _ _ _ _ fuel _ _ new (i + 1) (S perf))
          as [[r|e]|]; [|exact IH|exact I].
        destruct IH as [IH1 IH2]. split; [exact IH1|lia].
    + cbn [run_pagerank run_iteration]. split; [exact Hk|lia].
Qed.

(** X1.  Whatever the graph, the page set and the parameters, the engine
    never raises KeyError: if it raises, it is the ZeroDivisionError of the
    convergence test; and if it returns, the rank vector has exactly the
    pages as keys and the iteration count lies between 0 and
    max(0, max_iterations). *)
Theorem X1_engine_outcomes
        (graph : gmap Z (list Z)) (pages : gset Z) (damping tolerance : Q)
        (max_iterations : Z) :
  (forall e,
      compute_pagerank graph pages damping tolerance max_iterations
      = Some (Raise e) -> e = ZeroDivisionError) /\
  (forall pagerank k,
      compute_pagerank graph pages damping tolerance max_iterations
      = Some (Ok (pagerank, k)) ->
      dict_keys pagerank = elements pages /\ 0 <= k <= Z.max 0 max_iterations).
Proof.
  unfold compute_pagerank, compute_pagerank_fuel, pagerank_run.
  rewrite initial_pagerank_always.
  pose proof (while_loop_outcome graph pages damping tolerance max_iterations
                (Z.to_nat max_iterations) (uniform pages) 0 0%nat
                (uniform_keys pages)) as H.
  destruct (while_loop _ _ _ _ _ _ _ _ _ _ _) as [[r|e]|].
  - split; [discriminate|]. intros pr k [= <- <-]. exact H.
  - split; [intros e' [= <-]; exact H|discriminate].
  - split; discriminate.
Qed.

(** ** Bounds on the ranks *)

Lemma Qsum_over_le {A} (f g : A -> Q) (l : list A) :
  (forall x, In x l -> (f x <= g x)%Q) -> (Qsum_over f l <= Qsum_over g l)%Q.
Proof.
  induction l as [|x l IH]; intros H; [apply Qle_refl|].
  rewrite !Qsum_over_cons.
  assert (f x <= g x)%Q by (apply H; left; reflexivity).
  assert (Qsum_over f l <= Qsum_over g l)%Q
    by (apply IH; intros y Hy; apply H; right; exact Hy).
  lra.
Qed.

Lemma Qsum_over_member {A} (f : A -> Q) (l : list A) (x : A) :
  (forall y, In y l -> (0 <= f y)%Q) -> In x l -> (f x <= Qsum_over f l)%Q.
Proof.
  induction l as [|y l IH]; intros Hpos Hin; [destruct Hin|].
  rewrite Qsum_over_cons.
  assert (0 <= f y)%Q by (apply Hpos; left; reflexivity).
  assert (0 <= Qsum_over f l)%Q
    by (apply Qsum_over_nonneg; intros z Hz; apply Hpos; right; exact Hz).
  destruct Hin as [->|Hin]; [lra|].
  assert (f x <= Qsum_over f l)%Q
    by (apply IH; [intros z Hz; apply Hpos; right; exact Hz|exact Hin]).
  lra.
Qed.

Lemma indicator_sum_le (t : Z) (P : list Z) :
  NoDup P -> (Qsum_over (fun p => if t =? p then 1 else 0) P <= 1)%Q.
Proof.
  intros Hnd. destruct (decide (t ∈ P)) as [Hin|Hnin].
  - rewrite (indicator_sum_in t P Hnd Hin). apply Qle_refl.
  - rewrite Qsum_over_zero; [lra|].
    intros p Hp. destruct (Z.eqb_spec t p) as [->|]; [|reflexivity].
    exfalso. apply Hnin, list_elem_of_In, Hp.
Qed.

Lemma count_by_target_le (l P : list Z) :
  NoDup P ->
  (Qsum_over (fun p => inject_Z (py_len (List.filter (fun t => t =? p) l))) P
   <= inject_Z (py_len l))%Q.
Proof.
  intros Hnd. induction l as [|t l IH].
  - rewrite Qsum_over_zero; [apply Qle_refl|]. intros; reflexivity.
  - rewrite (Qsum_over_ext _
      (fun p => (if t =? p then 1 else 0)
                + inject_Z (py_len (List.filter (fun t => t =? p) l)))%Q).
    + rewrite Qsum_over_plus.
      pose proof (indicator_sum_le t P Hnd).
      unfold py_len at 2. cbn [length].
      rewrite Nat2Z.inj_succ, <- Z.add_1_r, inject_Z_plus.
      fold (py_len l). change (inject_Z 1) with 1%Q. lra.
    + intros p _. cbn [List.filter]. destruct (t =? p).
      * unfold py_len. cbn [length].
        rewrite Nat2Z.inj_succ, <- Z.add_1_r, inject_Z_plus. ring.
      * ring.
Qed.

Section RankBounds.
Variable graph : gmap Z (list Z).
Variable pages : gset Z.
Variable damping : Q.
Hypothesis nonempty : pages <> ∅.
Hypothesis damping_lo : (0 < damping)%Q.
Hypothesis damping_hi : (damping < 1)%Q.

Local Abbreviation n := (n_pages pages).

(** The edges into the pages carry at most what the edges out of the pages
    carry: what goes to targets outside [pages] is lost. *)
Lemma sum_in_links_le (c : Z -> Q) :
  (forall q, q ∈ pages -> (0 <= c q)%Q) ->
  (Qsum_over (fun p => Qsum_over c (in_links graph pages p)) (elements pages)
   <= Qsum_over (fun q => inject_Z (out_degree graph q) * c q) (elements pages))%Q.
Proof.
  intros Hc. unfold in_links.
  rewrite (Qsum_over_ext _
    (fun p => Qsum_over
       (fun q => inject_Z (py_len (List.filter (fun t => t =? p)
                                               (graph_get graph q))) * c q)
       (elements pages))%Q).
  - rewrite Qsum_over_swap. apply Qsum_over_le. intros q Hq.
    rewrite (Qsum_over_ext _
      (fun p => c q * inject_Z (py_len (List.filter (fun t => t =? p)
                                                    (graph_get graph q))))%Q)
      by (intros; ring).
    rewrite Qsum_over_scale.
    pose proof (count_by_target_le (graph_get graph q) (elements pages)
                  (NoDup_elements pages)) as Hle.
    assert (0 <= c q)%Q as Hq0
      by (apply Hc, elem_of_elements, list_elem_of_In, Hq).
    unfold out_degree. rewrite (Qmult_comm (inject_Z _) (c q)), !(Qmult_comm (c q)).
    apply Qmult_le_compat_r; assumption.
  - intros p _. rewrite Qsum_over_flat_map. apply Qsum_over_ext. intros q _.
    unfold Qsum_over at 1. rewrite map_map.
    apply (Qsum_over_const (c q)).
Qed.

End RankBounds.

Section RankBoundsStep.
Variable graph : gmap Z (list Z).
Variable pages : gset Z.
Variable damping : Q.
Hypothesis nonempty : pages <> ∅.
Hypothesis damping_lo : (0 < damping)%Q.
Hypothesis damping_hi : (damping < 1)%Q.

Local Abbreviation n := (n_pages pages).

Section OneStep.
Variable pagerank : list (Z * Q).
Hypothesis keys : dict_keys pagerank = elements pages.
Hypothesis ranks_nonneg : forall q, q ∈ pages -> (0 <= rank_of pagerank q)%Q.

Lemma dangling_share_nonneg : (0 <= dangling_mass graph pages pagerank / n)%Q.
Proof.
  apply Qle_shift_div_l; [apply (n_pages_pos pages nonempty)|].
  rewrite Qmult_0_l. apply Qsum_over_nonneg. intros q Hq.
  apply ranks_nonneg, (dangling_in_pages graph pages), list_elem_of_In, Hq.
Qed.

Lemma contributions_nonneg (p : Z) :
  (0 <= Qsum_over (contribution graph pagerank) (in_links graph pages p))%Q.
Proof.
  apply Qsum_over_nonneg. intros q Hq.
  apply list_elem_of_In, in_links_source in Hq as [Hq Hp].
  unfold contribution. apply Qle_shift_div_l.
  - change 0%Q with (inject_Z 0). rewrite <- Zlt_Qlt.
    exact (out_degree_pos graph _ _ Hp).
  - rewrite Qmult_0_l. apply ranks_nonneg, Hq.
Qed.

(** Every new rank is at least the share every page receives. *)
Lemma next_rank_lower (p : Z) :
  ((1 - damping) / n + damping * (dangling_mass graph pages pagerank / n)
   <= next_rank graph pages damping pagerank p)%Q.
Proof.
  unfold next_rank.
  pose proof (Qmult_le_0_compat _ _ (Qlt_le_weak _ _ damping_lo)
                (contributions_nonneg p)).
  lra.
Qed.

Lemma next_rank_floor (p : Z) :
  ((1 - damping) / n <= next_rank graph pages damping pagerank p)%Q.
Proof.
  pose proof (next_rank_lower p).
  pose proof (Qmult_le_0_compat _ _ (Qlt_le_weak _ _ damping_lo)
                dangling_share_nonneg).
  lra.
Qed.

(** A page without incoming edges receives exactly that share. *)
Lemma next_rank_no_in_links (p : Z) :
  in_links graph pages p = [] ->
  (next_rank graph pages damping pagerank p
   == (1 - damping) / n + damping * (dangling_mass graph pages pagerank / n))%Q.
Proof. intros E. unfold next_rank. rewrite E. unfold Qsum_over. cbn. ring. Qed.

(** One iteration maps total mass [m] to at most [(1 - d) + d * m]. *)
Lemma total_step_le :
  (total (step graph pages damping pagerank)
   <= (1 - damping) + damping * total pagerank)%Q.
Proof.
  pose proof (n_pages_pos pages nonempty) as Hn.
  rewrite (total_step graph pages damping pagerank nonempty keys).
  rewrite (total_rank_of pages pagerank keys).
  unfold next_rank.
  rewrite !Qsum_over_plus, !Qsum_over_const, Qsum_over_scale.
  pose proof (sum_in_links_le graph pages (contribution graph pagerank)) as Hle.
  assert (forall q, q ∈ pages -> (0 <= contribution graph pagerank q)%Q) as Hc.
  { intros q Hq. unfold contribution.
    destruct (Z.eqb_spec (out_degree graph q) 0) as [->|Hne].
    - change (inject_Z 0) with 0%Q. unfold Qdiv.
      change (/ 0)%Q with 0%Q. rewrite Qmult_0_r. apply Qle_refl.
    - apply Qle_shift_div_l.
      + change 0%Q with (inject_Z 0). rewrite <- Zlt_Qlt.
        unfold out_degree, py_len in *. lia.
      + rewrite Qmult_0_l. apply ranks_nonneg, Hq. }
  specialize (Hle Hc).
  rewrite (Qsum_over_filter_split
             (fun q => out_degree graph q =? 0) (rank_of pagerank)).
  rewrite (Qsum_over_filter (fun q => negb (out_degree graph q =? 0))).
  change (Qsum_over (rank_of pagerank) (List.filter _ (elements pages)))
    with (dangling_mass graph pages pagerank).
  rewrite (Qsum_over_ext
             (fun q => inject_Z (out_degree graph q) * contribution graph pagerank q)
             (fun q => if negb (out_degree graph q =? 0)
                       then rank_of pagerank q else 0))%Q in Hle.
  - revert Hle. fold n. generalize dependent n. intros N HN.
    generalize (dangling_mass graph pages pagerank). intros dm.
    match goal with |- context [Qsum_over ?f ?l] =>
      generalize (Qsum_over f l) end.
    intros a.
    match goal with |- context [Qsum_over ?f ?l] =>
      generalize (Qsum_over f l) end.
    intros b Hle.
    assert (N * ((1 - damping) / N) + N * (damping * (dm / N))
            == (1 - damping) + damping * dm)%Q as E by (field; lra).
    rewrite E.
    match type of Hle with
    | (?x <= ?y)%Q =>
        assert (damping * x <= damping * y)%Q
          by (apply Qmult_le_l; assumption)
    end.
    lra.
  - intros q _. unfold contribution.
    destruct (Z.eqb_spec (out_degree graph q) 0) as [->|Hne]; cbn [negb].
    + change (inject_Z 0) with 0%Q. ring.
    + field. change 0%Q with (inject_Z 0). rewrite inject_Z_injective. exact Hne.
Qed.

End OneStep.
End RankBoundsStep.

Section RankBoundsEngine.
Variable graph : gmap Z (list Z).
Variable pages : gset Z.
Variable damping : Q.
Hypothesis nonempty : pages <> ∅.
Hypothesis damping_lo : (0 < damping)%Q.
Hypothesis damping_hi : (damping < 1)%Q.

Local Abbreviation n := (n_pages pages).

(** Invariant of the iteration: ranks at least (1 - d)/n, total at most 1. *)
Lemma iterates_bounded (k : nat) :
  exists pagerank,
    pagerank_after graph pages damping k = Ok pagerank /\
    dict_keys pagerank = elements pages /\
    (forall q, q ∈ pages -> ((1 - damping) / n <= rank_of pagerank q)%Q) /\
    (total pagerank <= 1)%Q.
Proof.
  pose proof (n_pages_pos pages nonempty) as Hn.
  assert (0 < (1 - damping) / n)%Q as Hfloor
    by (apply Qlt_shift_div_l; [exact Hn|lra]).
  induction k as [|k (pr & Hpr & Hk & Hlow & Htot)].
  - exists (uniform pages). split; [apply initial_pagerank_uniform, nonempty|].
    split; [apply uniform_keys|]. split.
    + intros q Hq. rewrite (rank_of_uniform pages q Hq).
      apply Qle_shift_div_l; [exact Hn|].
      unfold Qdiv. rewrite <- Qmult_assoc, (Qmult_comm (/ n)), Qmult_inv_r; lra.
    + rewrite (total_uniform pages nonempty). apply Qle_refl.
  - assert (forall q, q ∈ pages -> (0 < rank_of pr q)%Q) as Hpos
      by (intros q Hq; specialize (Hlow q Hq); lra).
    assert (forall q, q ∈ pages -> (0 <= rank_of pr q)%Q) as Hnn
      by (intros q Hq; apply Qlt_le_weak, Hpos, Hq).
    pose proof (total_pos pages pr nonempty Hk Hpos) as Ht.
    destruct (pagerank_after_S graph pages damping nonempty k pr Hpr Hk)
      as [HS _]; [lra|].
    exists (step graph pages damping pr). split; [exact HS|].
    split; [apply step_keys|]. split.
    + intros q Hq.
      rewrite (rank_of_step graph pages damping pr nonempty Hk q Hq).
      apply next_rank_floor; assumption.
    + pose proof (total_step_le graph pages damping nonempty damping_lo pr Hk Hnn).
      assert (damping * total pr <= damping * 1)%Q
        by (apply Qmult_le_l; assumption).
      lra.
Qed.

(** The vector after at least one iteration: a page without incoming
    edges has the smallest rank. *)
Lemma iterates_no_in_links (k : nat) (p p' : Z) :
  p ∈ pages -> p' ∈ pages -> in_links graph pages p = [] ->
  exists pagerank,
    pagerank_after graph pages damping (S k) = Ok pagerank /\
    (rank_of pagerank p <= rank_of pagerank p')%Q.
Proof.
  intros Hp Hp' Hin.
  destruct (iterates_bounded k) as (pr & Hpr & Hk & Hlow & Htot).
  pose proof (n_pages_pos pages nonempty) as Hn.
  assert (0 < (1 - damping) / n)%Q as Hfloor
    by (apply Qlt_shift_div_l; [exact Hn|lra]).
  assert (forall q, q ∈ pages -> (0 < rank_of pr q)%Q) as Hpos
    by (intros q Hq; specialize (Hlow q Hq); lra).
  assert (forall q, q ∈ pages -> (0 <= rank_of pr q)%Q) as Hnn
    by (intros q Hq; apply Qlt_le_weak, Hpos, Hq).
  pose proof (total_pos pages pr nonempty Hk Hpos) as Ht.
  destruct (pagerank_after_S graph pages damping nonempty k pr Hpr Hk)
    as [HS _]; [lra|].
  exists (step graph pages damping pr). split; [exact HS|].
  rewrite !(rank_of_step graph pages damping pr nonempty Hk) by assumption.
  rewrite (next_rank_no_in_links graph pages damping pr p Hin).
  apply next_rank_lower; assumption.
Qed.

End RankBoundsEngine.

(** X2.  For a non-empty PageSet, any graph and a damping factor in (0,1),
    the engine returns a vector in which every page has a rank between
    (1-d)/n and 1, and whose sum lies between 1-d and 1 (mass can be lost
    to targets outside PageSet, never gained). *)
Theorem X2_rank_bounds
        (graph : gmap Z (list Z)) (pages : gset Z) (damping tolerance : Q)
        (max_iterations : Z) :
  pages <> ∅ -> (0 < damping)%Q -> (damping < 1)%Q ->
  exists pagerank k,
    compute_pagerank graph pages damping tolerance max_iterations
    = Some (Ok (pagerank, k)) /\
    (forall p, p ∈ pages ->
               ((1 - damping) / n_pages pages <= rank_of pagerank p)%Q /\
               (rank_of pagerank p <= 1)%Q) /\
    (1 - damping <= py_sum (dict_values pagerank))%Q /\
    (py_sum (dict_values pagerank) <= 1)%Q.
Proof.
  intros Hne Hlo Hhi.
  pose proof (regular_of_valid_damping graph pages damping Hne Hlo Hhi) as Hreg.
  destruct (compute_pagerank_spec graph pages damping tolerance max_iterations
              Hne Hreg) as (r & Hc & _ & _ & _ & Hafter & _).
  destruct (iterates_bounded graph pages damping Hne Hlo Hhi (run_performed r))
    as (pr & Hpr & Hk & Hlow & Htot).
  assert (pr = run_pagerank r) by congruence. subst pr.
  exists (run_pagerank r), (run_iteration r). split; [exact Hc|].
  pose proof (n_pages_pos pages Hne) as Hn.
  assert (0 < (1 - damping) / n_pages pages)%Q as Hfloor
    by (apply Qlt_shift_div_l; [exact Hn|lra]).
  pose proof (total_rank_of pages (run_pagerank r) Hk) as Etot.
  fold (total (run_pagerank r)).
  split; [|split; [|exact Htot]].
  - intros p Hp. split; [apply Hlow, Hp|].
    apply Qle_trans with (total (run_pagerank r)); [|exact Htot].
    rewrite Etot. apply (Qsum_over_member (rank_of (run_pagerank r))).
    + intros q Hq. apply Qlt_le_weak, Qlt_le_trans with (1 := Hfloor), Hlow.
      apply elem_of_elements, list_elem_of_In, Hq.
    + apply list_elem_of_In, elem_of_elements, Hp.
  - rewrite Etot.
    apply Qle_trans with
      (Qsum_over (fun _ : Z => (1 - damping) / n_pages pages) (elements pages))%Q.
    + rewrite Qsum_over_const. fold (n_pages pages).
      assert (n_pages pages * ((1 - damping) / n_pages pages) == 1 - damping)%Q
        as E by (field; lra).
      rewrite E. apply Qle_refl.
    + apply Qsum_over_le. intros q Hq.
      apply Hlow, elem_of_elements, list_elem_of_In, Hq.
Qed.

Lemma X2_rank_bounds_witness :
  exists pagerank k,
    compute_pagerank phantom_graph phantom_pages default_damping
                     default_tolerance 100 = Some (Ok (pagerank, k)) /\
    (forall p, p ∈ phantom_pages ->
               ((1 - default_damping) / n_pages phantom_pages
                <= rank_of pagerank p)%Q /\
               (rank_of pagerank p <= 1)%Q) /\
    (1 - default_damping <= py_sum (dict_values pagerank))%Q /\
    (py_sum (dict_values pagerank) <= 1)%Q.
Proof.
  apply X2_rank_bounds.
  - apply nonempty_by_elements. vm_compute. discriminate.
  - reflexivity.
  - reflexivity.
Defined.

(** X3.  For valid parameters (damping in (0,1), maxIter >= 1) on a
    non-empty PageSet, a page that no page of PageSet links to ends with
    the smallest rank of the returned vector. *)
Theorem X3_unlinked_page_has_lowest_rank
        (graph : gmap Z (list Z)) (pages : gset Z) (damping tolerance : Q)
        (max_iterations : Z) (p p' : Z) :
  pages <> ∅ -> (0 < damping)%Q -> (damping < 1)%Q -> 1 <= max_iterations ->
  p ∈ pages -> p' ∈ pages ->
  (forall q, q ∈ pages -> p ∉ graph_get graph q) ->
  exists pagerank k,
    compute_pagerank graph pages damping tolerance max_iterations
    = Some (Ok (pagerank, k)) /\
    (rank_of pagerank p <= rank_of pagerank p')%Q.
Proof.
  intros Hne Hlo Hhi Hmi Hp Hp' Hnolink.
  assert (in_links graph pages p = []) as Hin.
  { destruct (in_links graph pages p) as [|q l] eqn:E; [reflexivity|].
    assert (q ∈ in_links graph pages p) as Hq by (rewrite E; left).
    apply in_links_source in Hq as [Hq Hl]. destruct (Hnolink q Hq Hl). }
  pose proof (regular_of_valid_damping graph pages damping Hne Hlo Hhi) as Hreg.
  destruct (compute_pagerank_spec graph pages damping tolerance max_iterations
              Hne Hreg) as (r & Hc & _ & Hi & Hle & Hafter & _ & Hend).
  exists (run_pagerank r), (run_iteration r). split; [exact Hc|].
  destruct (run_performed r) as [|j] eqn:Ej.
  - exfalso. destruct (run_break r).
    + destruct Hend as (j & Hj & _). discriminate.
    + destruct Hend as [Hend _]. rewrite Z.max_r in Hend by lia. cbn in Hi. lia.
  - destruct (iterates_no_in_links graph pages damping Hne Hlo Hhi j p p'
                Hp Hp' Hin) as (pr & Hpr & Hrank).
    assert (pr = run_pagerank r) by congruence. subst pr. exact Hrank.
Qed.

Lemma X3_unlinked_page_witness :
  exists pagerank k,
    compute_pagerank test_graph test_pages default_damping default_tolerance 100
    = Some (Ok (pagerank, k)) /\
    (rank_of pagerank 3 <= rank_of pagerank 1)%Q.
Proof.
  apply X3_unlinked_page_has_lowest_rank.
  - apply nonempty_by_elements. vm_compute. discriminate.
  - reflexivity.
  - reflexivity.
  - lia.
  - apply elem_of_elements. vm_compute. repeat constructor.
  - apply elem_of_elements. vm_compute. repeat constructor.
  - intros q Hq Hl. apply elem_of_elements in Hq. vm_compute in Hq.
    repeat (apply elem_of_cons in Hq as [->|Hq];
            [vm_compute in Hl;
             repeat (apply elem_of_cons in Hl as [Hl|Hl]; [discriminate Hl|]);
             inversion Hl|]).
    inversion Hq.
Defined.

(** ** Graphs on which the uniform vector is returned *)










(** ** The link extractor *)

Local Open Scope string_scope.




Lemma span_digits_app (ds t : string) :
  all_digits ds = true ->
  match t with String c _ => is_digit c = false | EmptyString => True end ->
  span_digits (ds ++ t) = (ds, t).
Proof.
  intros Hd Ht. induction ds as [|c ds IH].
  - change (EmptyString ++ t) with t.
    destruct t as [|c r]; [reflexivity|]. cbn [span_digits]. rewrite Ht. reflexivity.
  - cbn [all_digits] in Hd. apply andb_true_iff in Hd as [Hc Hd].
    change (String c ds ++ t) with (String c (ds ++ t)).
    cbn [span_digits]. rewrite Hc, (IH Hd). reflexivity.
Qed.














(** ** The graph builder *)

Local Close Scope string_scope.
Local Open Scope Z_scope.

(** The page number and the links of every file, in file order. *)
Definition parse_files (files_content : list (string * string))
  : result (list (Z * list Z)) :=
  mapM (fun item => page_num ← page_number (fst item);
                    outgoing_links ← parse_links (snd item);
                    mret (page_num, outgoing_links))
       files_content.

(** The updates of the second loop, once every file is parsed. *)
Definition record_document (gi : gmap Z (list Z) * gmap Z (list Z))
           (doc : Z * list Z) : gmap Z (list Z) * gmap Z (list Z) :=
  (<[fst doc := snd doc]> (fst gi),
   fold_left (fun incoming target => dd_append incoming target (fst doc))
             (snd doc) (snd gi)).

Lemma add_document_record gi (name content : string) :
  add_document gi (name, content) =
  page_num ← page_number name;
  outgoing_links ← parse_links content;
  mret (record_document gi (page_num, outgoing_links)).
Proof. reflexivity. Qed.

Lemma foldM_add_document_parse (files : list (string * string))
      (gi : gmap Z (list Z) * gmap Z (list Z)) :
  foldM add_document gi files =
  docs ← parse_files files; mret (fold_left record_document docs gi).
Proof.
  revert gi. induction files as [|[name content] files IH]; intros gi;
    [reflexivity|].
  cbn [foldM]. unfold parse_files. cbn [mapM]. fold (parse_files files).
  rewrite add_document_record. cbn [fst snd].
  destruct (page_number name) as [k|e]; [|reflexivity].
  cbn [mbind result_bind].
  destruct (parse_links content) as [links|e]; [|reflexivity].
  cbn [mbind result_bind mret result_ret].
  rewrite IH. destruct (parse_files files) as [docs|e]; reflexivity.
Qed.

Lemma foldM_add_page_parse (files : list (string * string)) (acc : gset Z)
      (docs : list (Z * list Z)) :
  parse_files files = Ok docs ->
  foldM add_page acc (map fst files)
  = Ok (fold_left (fun pages doc => {[fst doc]} ∪ pages) docs acc).
Proof.
  revert acc docs. induction files as [|[name content] files IH];
    intros acc docs; unfold parse_files; cbn [mapM map fst snd].
  - intros [= <-]. reflexivity.
  - fold (parse_files files). cbn [foldM].
    destruct (page_number name) as [k|e] eqn:Ek; [|discriminate].
    rewrite (add_page_ok acc name k Ek). cbn [mbind result_bind].
    destruct (parse_links content) as [links|e]; [|discriminate].
    cbn [mbind result_bind].
    destruct (parse_files files) as [docs'|e]; [|discriminate].
    cbn [mbind result_bind mret result_ret]. intros [= <-].
    rewrite (IH _ docs' eq_refl). reflexivity.
Qed.

(** A successful run of the builder in terms of the parsed files. *)
Lemma build_graph_parsed (files : list (string * string))
      (graph incoming : gmap Z (list Z)) (pages : gset Z) :
  build_graph files = Ok (graph, incoming, pages) ->
  exists docs,
    parse_files files = Ok docs /\
    (graph, incoming) = fold_left record_document docs (∅, ∅) /\
    pages = fold_left (fun pages doc => {[fst doc]} ∪ pages) docs ∅.
Proof.
  unfold build_graph. intros H.
  destruct (foldM add_page ∅ (map fst files)) as [ps|e] eqn:Ep; [|discriminate].
  cbn [mbind result_bind] in H.
  rewrite foldM_add_document_parse in H.
  destruct (parse_files files) as [docs|e] eqn:Ed; [|discriminate].
  cbn [mbind result_bind mret result_ret] in H.
  rewrite (foldM_add_page_parse files ∅ docs Ed) in Ep.
  exists docs. split; [reflexivity|].
  destruct (fold_left record_document docs (∅, ∅)) as [g i]. cbn [fst snd] in H.
  injection H as -> -> <-. injection Ep as Ep. split; [reflexivity|].
  symmetry. exact Ep.
Qed.

Lemma fold_pages_elem (docs : list (Z * list Z)) (acc : gset Z) (k : Z) :
  k ∈ fold_left (fun pages doc => {[fst doc]} ∪ pages) docs acc <->
  k ∈ acc \/ k ∈ map fst docs.
Proof.
  revert acc. induction docs as [|d docs IH]; intros acc; cbn [fold_left map].
  - split; [tauto|]. intros [H|H]; [exact H|inversion H].
  - rewrite IH, elem_of_union, elem_of_singleton, elem_of_cons. tauto.
Qed.

Lemma fold_graph_lookup_some (docs : list (Z * list Z))
      (gi : gmap Z (list Z) * gmap Z (list Z)) (k : Z) :
  is_Some (fst (fold_left record_document docs gi) !! k) <->
  is_Some (fst gi !! k) \/ k ∈ map fst docs.
Proof.
  revert gi. induction docs as [|d docs IH]; intros gi; cbn [fold_left map].
  - split; [tauto|]. intros [H|H]; [exact H|inversion H].
  - rewrite IH. unfold record_document. cbn [fst].
    rewrite lookup_insert_is_Some, elem_of_cons.
    destruct (decide (fst d = k)) as [<-|Hne].
    + split; [intros _; right; left; reflexivity|intros _; left; left; reflexivity].
    + split.
      * intros [[H|[_ H]]|H]; [congruence|left; exact H|right; right; exact H].
      * intros [H|[H|H]];
          [left; right; split; assumption|congruence|right; exact H].
Qed.

(** Later documents with other page numbers leave an entry untouched. *)
Lemma fold_graph_lookup_other (docs : list (Z * list Z))
      (gi : gmap Z (list Z) * gmap Z (list Z)) (k : Z) :
  k ∉ map fst docs ->
  fst (fold_left record_document docs gi) !! k = fst gi !! k.
Proof.
  revert gi. induction docs as [|d docs IH]; intros gi Hk; [reflexivity|].
  cbn [fold_left map] in *. apply not_elem_of_cons in Hk as [Hne Hk].
  rewrite (IH _ Hk). unfold record_document. cbn [fst].
  apply lookup_insert_ne. congruence.
Qed.

Lemma fold_graph_lookup_doc (docs : list (Z * list Z))
      (gi : gmap Z (list Z) * gmap Z (list Z)) (k : Z) (links : list Z) :
  NoDup (map fst docs) -> (k, links) ∈ docs ->
  fst (fold_left record_document docs gi) !! k = Some links.
Proof.
  revert gi. induction docs as [|d docs IH]; intros gi Hnd Hin; [inversion Hin|].
  cbn [fold_left map] in *. apply NoDup_cons in Hnd as [Hd Hnd].
  apply elem_of_cons in Hin as [<-|Hin].
  - rewrite (fold_graph_lookup_other docs _ k Hd).
    unfold record_document. cbn [fst snd]. apply lookup_insert_eq.
  - apply IH; assumption.
Qed.

Lemma fold_incoming_get (docs : list (Z * list Z))
      (gi : gmap Z (list Z) * gmap Z (list Z)) (t : Z) :
  graph_get (snd (fold_left record_document docs gi)) t =
  graph_get (snd gi) t ++
  flat_map (fun doc => map (fun _ => fst doc)
                           (List.filter (fun x => x =? t) (snd doc))) docs.
Proof.
  revert gi. induction docs as [|d docs IH]; intros gi; cbn [fold_left flat_map].
  - rewrite app_nil_r. reflexivity.
  - rewrite IH. unfold record_document. cbn [snd].
    rewrite incoming_inner, <- app_assoc. reflexivity.
Qed.

Lemma parse_files_docs (files : list (string * string)) (docs : list (Z * list Z)) :
  parse_files files = Ok docs ->
  map (fun item => page_number (fst item)) files = map (fun d => Ok (fst d)) docs /\
  forall name content,
    (name, content) ∈ files ->
    exists k links,
      page_number name = Ok k /\ parse_links content = Ok links /\
      (k, links) ∈ docs.
Proof.
  revert docs. induction files as [|[name content] files IH]; intros docs;
    unfold parse_files; cbn [mapM map fst snd].
  - intros [= <-]. split; [reflexivity|]. intros ? ? H. inversion H.
  - fold (parse_files files).
    destruct (page_number name) as [k|e] eqn:Ek; [|discriminate].
    cbn [mbind result_bind].
    destruct (parse_links content) as [links|e] eqn:El; [|discriminate].
    cbn [mbind result_bind].
    destruct (parse_files files) as [docs'|e]; [|discriminate].
    cbn [mbind result_bind mret result_ret]. intros [= <-].
    destruct (IH docs' eq_refl) as [IH1 IH2]. split.
    + cbn [map fst]. rewrite IH1. reflexivity.
    + intros name' content' Hin. apply elem_of_cons in Hin as [[= -> ->]|Hin].
      * exists k, links. repeat split; [assumption|assumption|left].
      * destruct (IH2 _ _ Hin) as (k' & links' & H1 & H2 & H3).
        exists k', links'. repeat split; [assumption|assumption|right; exact H3].
Qed.

Lemma NoDup_map_Ok (l : list Z) : NoDup (map (@Ok Z) l) -> NoDup l.
Proof.
  induction l as [|x l IH]; intros H; [constructor|].
  cbn [map] in H. apply NoDup_cons in H as [Hx Hl].
  apply NoDup_cons. split; [|apply IH, Hl].
  intros Hin. apply Hx. apply list_elem_of_In, in_map, list_elem_of_In, Hin.
Qed.

Lemma flat_map_fst {A B C} (f : A -> list C) (l : list (A * B)) :
  flat_map f (map fst l) = flat_map (fun d => f (fst d)) l.
Proof. induction l as [|d l IH]; [reflexivity|]. cbn. rewrite IH. reflexivity. Qed.

Lemma flat_map_ext_in {A B} (f g : A -> list B) (l : list A) :
  (forall x, x ∈ l -> f x = g x) -> flat_map f l = flat_map g l.
Proof.
  induction l as [|x l IH]; intros H; [reflexivity|].
  cbn [flat_map]. rewrite (H x) by left. rewrite IH; [reflexivity|].
  intros y Hy. apply H. right. exact Hy.
Qed.

(** The page numbers of the files are pairwise distinct. *)
Definition distinct_pages (files_content : list (string * string)) : Prop :=
  NoDup (map (fun item => page_number (fst item)) files_content).

Section Built.
Variable files_content : list (string * string).
Variables graph incoming : gmap Z (list Z).
Variable pages : gset Z.
Hypothesis built : build_graph files_content = Ok (graph, incoming, pages).

Lemma built_pages_keys (k : Z) : k ∈ pages <-> is_Some (graph !! k).
Proof.
  destruct (build_graph_parsed _ _ _ _ built) as (docs & _ & Hgi & ->).
  rewrite fold_pages_elem.
  assert (graph = fst (fold_left record_document docs (∅, ∅))) as ->
    by (rewrite <- Hgi; reflexivity).
  rewrite fold_graph_lookup_some. cbn [fst]. rewrite lookup_empty.
  split; (intros [H|H]; [|right; exact H]).
  - apply not_elem_of_empty in H. contradiction.
  - destruct H as [? H]. discriminate H.
Qed.

Hypothesis distinct : distinct_pages files_content.

Lemma built_docs :
  exists docs,
    parse_files files_content = Ok docs /\
    NoDup (map fst docs) /\
    (forall k, k ∈ pages <-> k ∈ map fst docs) /\
    (forall k links, (k, links) ∈ docs -> graph !! k = Some links) /\
    (forall t, graph_get incoming t =
               flat_map (fun doc => map (fun _ => fst doc)
                            (List.filter (fun x => x =? t) (snd doc))) docs).
Proof.
  destruct (build_graph_parsed _ _ _ _ built) as (docs & Hdocs & Hgi & Hp).
  exists docs. split; [exact Hdocs|].
  destruct (parse_files_docs _ _ Hdocs) as [Hmap _].
  assert (NoDup (map fst docs)) as Hnd.
  { apply NoDup_map_Ok. rewrite map_map. rewrite <- Hmap. exact distinct. }
  split; [exact Hnd|]. split; [|split].
  - intros k. rewrite Hp, fold_pages_elem. split; [|right; assumption].
    intros [H|H]; [apply not_elem_of_empty in H; contradiction|exact H].
  - intros k links Hin.
    assert (graph = fst (fold_left record_document docs (∅, ∅))) as ->
      by (rewrite <- Hgi; reflexivity).
    apply fold_graph_lookup_doc; assumption.
  - intros t.
    assert (incoming = snd (fold_left record_document docs (∅, ∅))) as ->
      by (rewrite <- Hgi; reflexivity).
    rewrite fold_incoming_get. reflexivity.
Qed.

Lemma built_document (name content : string) :
  (name, content) ∈ files_content ->
  exists k links,
    page_number name = Ok k /\ parse_links content = Ok links /\
    k ∈ pages /\ graph !! k = Some links.
Proof.
  intros Hin. destruct built_docs as (docs & Hdocs & Hnd & Hp & Hg & _).
  destruct (parse_files_docs _ _ Hdocs) as [_ Hfiles].
  destruct (Hfiles name content Hin) as (k & links & Hk & Hl & Hd).
  exists k, links. repeat split; try assumption.
  - apply Hp. apply list_elem_of_In.
    change k with (fst (k, links)). apply in_map, list_elem_of_In, Hd.
  - apply Hg, Hd.
Qed.

Lemma built_incoming (t : Z) :
  graph_get incoming t ≡ₚ graph_get (build_incoming graph pages) t.
Proof.
  destruct built_docs as (docs & Hdocs & Hnd & Hp & Hg & Hi).
  rewrite Hi, build_incoming_get. unfold in_links.
  assert (elements pages ≡ₚ map fst docs) as Hperm.
  { apply NoDup_Permutation; [apply NoDup_elements|exact Hnd|].
    intros k. rewrite elem_of_elements. apply Hp. }
  rewrite Hperm, flat_map_fst.
  erewrite flat_map_ext_in; [reflexivity|].
  intros [k links] Hd. cbn [fst snd]. unfold graph_get.
  rewrite (Hg k links Hd). reflexivity.
Qed.

End Built.

Local Open Scope string_scope.

(** Two documents: page 12 links to 3, 40 and 3 again; page 3 has no link. *)
Definition sample_files : list (string * string) :=
  [("12.html", sample_document); ("3.html", EmptyString)].

Lemma sample_files_distinct : distinct_pages sample_files.
Proof.
  unfold distinct_pages, sample_files. cbn [map fst].
  assert (page_number "12.html" = Ok 12%Z) as -> by reflexivity.
  assert (page_number "3.html" = Ok 3%Z) as -> by reflexivity.
  apply NoDup_cons. split; [|apply NoDup_singleton].
  intros H. apply list_elem_of_singleton in H. discriminate H.
Qed.

Local Close Scope string_scope.

(** X8.  When the builder succeeds, the graph has an entry (possibly the
    empty list) for every page of PageSet and for no other identifier. *)
Theorem X8_graph_keys_are_the_pages
        (files_content : list (string * string))
        (graph incoming : gmap Z (list Z)) (pages : gset Z) :
  build_graph files_content = Ok (graph, incoming, pages) ->
  forall k, k ∈ pages <-> is_Some (graph !! k).
Proof. intros H k. exact (built_pages_keys _ _ _ _ H k). Qed.

Lemma X8_graph_keys_witness :
  exists graph incoming pages,
    build_graph sample_files = Ok (graph, incoming, pages) /\
    forall k, k ∈ pages <-> is_Some (graph !! k).
Proof.
  eexists _, _, _. split; [vm_compute; reflexivity|].
  eapply (X8_graph_keys_are_the_pages sample_files). vm_compute. reflexivity.
Defined.

(** X9.  When the builder succeeds and no two file names give the same
    page number, every document's page is in PageSet and the graph maps it
    to the links extracted from that document, in text order. *)
Theorem X9_graph_holds_each_document
        (files_content : list (string * string))
        (graph incoming : gmap Z (list Z)) (pages : gset Z)
        (name content : string) :
  build_graph files_content = Ok (graph, incoming, pages) ->
  distinct_pages files_content ->
  (name, content) ∈ files_content ->
  exists k links,
    page_number name = Ok k /\ parse_links content = Ok links /\
    k ∈ pages /\ graph !! k = Some links.
Proof. intros H Hd Hin. exact (built_document _ _ _ _ H Hd name content Hin). Qed.

Lemma X9_graph_holds_witness :
  exists graph incoming pages,
    build_graph sample_files = Ok (graph, incoming, pages) /\
    exists k links,
      page_number "12.html" = Ok k /\ parse_links sample_document = Ok links /\
      k ∈ pages /\ graph !! k = Some links.
Proof.
  eexists _, _, _. split; [vm_compute; reflexivity|].
  eapply (X9_graph_holds_each_document sample_files).
  - vm_compute. reflexivity.
  - exact sample_files_distinct.
  - left.
Defined.

(** X10.  When the builder succeeds and no two file names give the same
    page number, the incoming index it returns lists, for every target,
    the same pages with the same multiplicities as the index that
    [compute_pagerank] rebuilds from the graph and the page set (the order
    may differ); in particular q is listed for t exactly when q is a page
    whose document links to t. *)
Theorem X10_incoming_is_the_transpose
        (files_content : list (string * string))
        (graph incoming : gmap Z (list Z)) (pages : gset Z) (t : Z) :
  build_graph files_content = Ok (graph, incoming, pages) ->
  distinct_pages files_content ->
  graph_get incoming t ≡ₚ graph_get (build_incoming graph pages) t /\
  forall q, q ∈ graph_get incoming t <-> q ∈ pages /\ t ∈ graph_get graph q.
Proof.
  intros H Hd.
  pose proof (built_incoming _ _ _ _ H Hd t) as Hperm.
  split; [exact Hperm|].
  intros q. rewrite Hperm, build_incoming_get. apply in_links_source.
Qed.

Lemma X10_incoming_witness :
  exists graph incoming pages,
    build_graph sample_files = Ok (graph, incoming, pages) /\
    graph_get incoming 3 ≡ₚ graph_get (build_incoming graph pages) 3 /\
    forall q, q ∈ graph_get incoming 3 <-> q ∈ pages /\ 3 ∈ graph_get graph q.
Proof.
  eexists _, _, _. split; [vm_compute; reflexivity|].
  eapply (X10_incoming_is_the_transpose sample_files).
  - vm_compute. reflexivity.
  - exact sample_files_distinct.
Defined.

Local Open Scope string_scope.

(** Without distinct page numbers the two indexes differ: [1.html] and
    [01.html] both give page 1; the graph keeps the links of the later
    file while the incoming index keeps those of both. *)
Example colliding_names :
  exists graph incoming pages,
    build_graph [("1.html", anchor_open ++ "5" ++ anchor_close);
                 ("01.html", anchor_open ++ "6" ++ anchor_close)]
    = Ok (graph, incoming, pages) /\
    elements pages = [1%Z] /\ graph_get graph 1 = [6%Z] /\
    graph_get incoming 5 = [1%Z] /\
    graph_get (build_incoming graph pages) 5 = [].
Proof.
  eexists _, _, _. split; [vm_compute; reflexivity|].
  repeat split; vm_compute; reflexivity.
Qed.

Local Close Scope string_scope.

(** ** The link statistics *)

Local Open Scope Z_scope.

Lemma describe_fields (single_point : bool) (data : list Z) (st : link_stats) :
  describe single_point data = Ok st ->
  mean data = Ok (st_average st) /\ median data = Ok (st_median st) /\
  py_max data = Ok (st_max st) /\ py_min data = Ok (st_min st) /\
  quantiles single_point data 5 = Ok (st_quintiles st).
Proof.
  unfold describe.
  destruct (mean data) as [a|]; [|discriminate]. cbn [mbind result_bind].
  destruct (median data) as [m|]; [|discriminate]. cbn [mbind result_bind].
  destruct (py_max data) as [hi|]; [|discriminate]. cbn [mbind result_bind].
  destruct (py_min data) as [lo|]; [|discriminate]. cbn [mbind result_bind].
  destruct (quantiles single_point data 5) as [q|]; [|discriminate].
  cbn [mbind result_bind mret result_ret]. intros [= <-]. cbn. repeat split.
Qed.

Lemma describe_raises (single_point : bool) (data : list Z) (e : exn) :
  describe single_point data = Raise e ->
  e = StatisticsError /\ py_len data <= 1.
Proof.
  intros H. destruct data as [|x [|y data]].
  - cbn in H. injection H as <-. split; [reflexivity|unfold py_len; cbn; lia].
  - split; [|unfold py_len; cbn; lia].
    unfold describe in H.
    assert (mean [x] = Ok (inject_Z (0 + x) / inject_Z 1)%Q) as E1 by reflexivity.
    assert (median [x] = Ok (inject_Z x)) as E2 by reflexivity.
    rewrite E1, E2 in H. cbn [mbind result_bind py_max py_min fold_left] in H.
    rewrite quantiles_single in H. destruct single_point; [discriminate|].
    cbn in H. congruence.
  - pose proof (describe_ok single_point (x :: y :: data)) as Hok.
    rewrite H in Hok. cbn [is_ok] in Hok.
    assert (false = true) by (apply Hok; unfold py_len; cbn [length]; lia).
    discriminate.
Qed.

Lemma compute_statistics_raises
      (single_point : bool) (graph : gmap Z (list Z)) (pages : gset Z) (e : exn) :
  compute_statistics single_point graph pages = Raise e ->
  e = StatisticsError /\ (size pages <= 1)%nat.
Proof.
  unfold compute_statistics. intros H.
  assert (py_len (outgoing_counts graph pages) = Z.of_nat (size pages)) as Eo
    by (unfold py_len, outgoing_counts; rewrite length_map; reflexivity).
  assert (py_len (incoming_values graph pages) = Z.of_nat (size pages)) as Ei
    by (unfold py_len, incoming_values; rewrite length_map; reflexivity).
  destruct (describe single_point (outgoing_counts graph pages)) as [o|e1] eqn:E1.
  - cbn [mbind result_bind] in H.
    destruct (describe single_point (incoming_values graph pages))
      as [i|e2] eqn:E2; [discriminate|].
    cbn [mbind result_bind] in H. injection H as <-.
    destruct (describe_raises _ _ _ E2) as [-> Hlen]. split; [reflexivity|lia].
  - cbn [mbind result_bind] in H. injection H as <-.
    destruct (describe_raises _ _ _ E1) as [-> Hlen]. split; [reflexivity|lia].
Qed.

(** X11.  The statistics never raise IndexError, ValueError or KeyError:
    whatever the graph, the only exception is StatisticsError, and it can
    only occur when PageSet has fewer than two pages. *)
Theorem X11_statistics_only_fail_on_small_page_sets
        (single_point : bool) (graph : gmap Z (list Z)) (pages : gset Z)
        (e : exn) :
  compute_statistics single_point graph pages = Raise e ->
  e = StatisticsError /\ (size pages <= 1)%nat.
Proof. apply compute_statistics_raises. Qed.

Lemma X11_statistics_witness :
  StatisticsError = StatisticsError /\ (size phantom_pages <= 1)%nat.
Proof.
  apply (X11_statistics_only_fail_on_small_page_sets false phantom_graph
           phantom_pages StatisticsError).
  vm_compute. reflexivity.
Defined.

Lemma fold_max_spec (l : list Z) (x : Z) :
  (fold_left Z.max l x = x \/ In (fold_left Z.max l x) l) /\
  x <= fold_left Z.max l x /\ (forall y, In y l -> y <= fold_left Z.max l x).
Proof.
  revert x. induction l as [|a l IH]; intros x; cbn [fold_left].
  - split; [left; reflexivity|]. split; [lia|intros y []].
  - destruct (IH (Z.max x a)) as (Hin & Hge & Hall). split; [|split].
    + destruct Hin as [E|Hin]; [|right; right; exact Hin].
      rewrite E. destruct (Z.max_spec x a) as [[_ ->]|[_ ->]];
        [right; left; reflexivity|left; reflexivity].
    + lia.
    + intros y [<-|Hy]; [lia|apply Hall, Hy].
Qed.

Lemma fold_min_spec (l : list Z) (x : Z) :
  (fold_left Z.min l x = x \/ In (fold_left Z.min l x) l) /\
  fold_left Z.min l x <= x /\ (forall y, In y l -> fold_left Z.min l x <= y).
Proof.
  revert x. induction l as [|a l IH]; intros x; cbn [fold_left].
  - split; [left; reflexivity|]. split; [lia|intros y []].
  - destruct (IH (Z.min x a)) as (Hin & Hge & Hall). split; [|split].
    + destruct Hin as [E|Hin]; [|right; right; exact Hin].
      rewrite E. destruct (Z.min_spec x a) as [[_ ->]|[_ ->]];
        [left; reflexivity|right; left; reflexivity].
    + lia.
    + intros y [<-|Hy]; [lia|apply Hall, Hy].
Qed.

Lemma py_max_spec (data : list Z) (hi : Z) :
  py_max data = Ok hi -> In hi data /\ forall y, In y data -> y <= hi.
Proof.
  destruct data as [|x l]; [discriminate|]. cbn [py_max]. intros [= <-].
  destruct (fold_max_spec l x) as (Hin & Hge & Hall). split.
  - destruct Hin as [->|Hin]; [left; reflexivity|right; exact Hin].
  - intros y [<-|Hy]; [exact Hge|apply Hall, Hy].
Qed.

Lemma py_min_spec (data : list Z) (lo : Z) :
  py_min data = Ok lo -> In lo data /\ forall y, In y data -> lo <= y.
Proof.
  destruct data as [|x l]; [discriminate|]. cbn [py_min]. intros [= <-].
  destruct (fold_min_spec l x) as (Hin & Hge & Hall). split.
  - destruct Hin as [->|Hin]; [left; reflexivity|right; exact Hin].
  - intros y [<-|Hy]; [exact Hge|apply Hall, Hy].
Qed.

Lemma insert_sorted_In (x y : Z) (l : list Z) :
  In y (insert_sorted x l) <-> y = x \/ In y l.
Proof.
  induction l as [|a l IH]; cbn [insert_sorted].
  - cbn. intuition congruence.
  - destruct (x <=? a); cbn [In]; [intuition congruence|].
    rewrite IH. intuition congruence.
Qed.

Lemma sorted_In (y : Z) (data : list Z) : In y (sorted data) <-> In y data.
Proof.
  induction data as [|x data IH]; [reflexivity|].
  cbn [sorted fold_right]. fold (sorted data).
  rewrite insert_sorted_In, IH. cbn [In]. intuition congruence.
Qed.

Lemma list_get_In (data : list Z) (i x : Z) : list_get data i = Ok x -> In x data.
Proof.
  unfold list_get.
  destruct ((0 <=? _) && (_ <? py_len data)); [|discriminate].
  destruct (nth_error data _) as [y|] eqn:E; [|discriminate].
  intros [= <-]. exact (nth_error_In _ _ E).
Qed.

Lemma fold_add_shift (l : list Z) (a : Z) :
  fold_left Z.add l a = a + fold_left Z.add l 0.
Proof.
  revert a. induction l as [|x l IH]; intros a; cbn [fold_left]; [lia|].
  rewrite (IH (a + x)), (IH (0 + x)). lia.
Qed.

Lemma Zsum_cons (x : Z) (l : list Z) : Zsum (x :: l) = x + Zsum l.
Proof. unfold Zsum. cbn [fold_left]. rewrite fold_add_shift. lia. Qed.

Lemma Zsum_bounds (data : list Z) (lo hi : Z) :
  (forall y, In y data -> lo <= y <= hi) ->
  py_len data * lo <= Zsum data <= py_len data * hi.
Proof.
  unfold py_len. induction data as [|x l IH]; intros H.
  - cbn. lia.
  - rewrite Zsum_cons. cbn [length]. rewrite Nat2Z.inj_succ.
    assert (lo <= x <= hi) by (apply H; left; reflexivity).
    assert (Z.of_nat (length l) * lo <= Zsum l <= Z.of_nat (length l) * hi)
      by (apply IH; intros y Hy; apply H; right; exact Hy).
    lia.
Qed.

Lemma mean_bounds (data : list Z) (lo hi : Z) (a : Q) :
  (forall y, In y data -> lo <= y <= hi) -> mean data = Ok a ->
  (inject_Z lo <= a)%Q /\ (a <= inject_Z hi)%Q.
Proof.
  intros Hb. unfold mean. cbv zeta.
  destruct (Z.ltb_spec (py_len data) 1) as [|Hn]; [discriminate|].
  intros [= <-]. pose proof (Zsum_bounds data lo hi Hb) as [H1 H2].
  assert (0 < inject_Z (py_len data))%Q as Hpos
    by (change 0%Q with (inject_Z 0); rewrite <- Zlt_Qlt; lia).
  split.
  - apply Qle_shift_div_l; [exact Hpos|].
    rewrite <- inject_Z_mult, <- Zle_Qle. lia.
  - apply Qle_shift_div_r; [exact Hpos|].
    rewrite <- inject_Z_mult, <- Zle_Qle. lia.
Qed.

Lemma bind_ok_inv {A B} (m : result A) (f : A -> result B) (b : B) :
  m ≫= f = Ok b -> exists a, m = Ok a /\ f a = Ok b.
Proof. destruct m as [a|]; [intros H; exists a; split; [reflexivity|exact H]|discriminate]. Qed.

Lemma median_bounds (data : list Z) (lo hi : Z) (m : Q) :
  (forall y, In y data -> lo <= y <= hi) -> median data = Ok m ->
  (inject_Z lo <= m)%Q /\ (m <= inject_Z hi)%Q.
Proof.
  intros Hb. unfold median. cbv zeta.
  destruct (py_len (sorted data) =? 0); [discriminate|].
  destruct (py_len (sorted data) mod 2 =? 1).
  - intros H. apply bind_ok_inv in H as (x & E & H). injection H as <-.
    apply list_get_In, sorted_In, Hb in E. rewrite <- !Zle_Qle. lia.
  - intros H. apply bind_ok_inv in H as (a & Ea & H).
    apply bind_ok_inv in H as (b & Eb & H). injection H as <-.
    apply list_get_In, sorted_In, Hb in Ea.
    apply list_get_In, sorted_In, Hb in Eb.
    assert (0 < 2)%Q as H2 by reflexivity.
    split.
    + apply Qle_shift_div_l; [exact H2|].
      change 2%Q with (inject_Z 2). rewrite <- inject_Z_mult, <- Zle_Qle. lia.
    + apply Qle_shift_div_r; [exact H2|].
      change 2%Q with (inject_Z 2). rewrite <- inject_Z_mult, <- Zle_Qle. lia.
Qed.

Lemma mapM_result_length {A B} (f : A -> result B) (l : list A) (l' : list B) :
  mapM f l = Ok l' -> length l' = length l.
Proof.
  revert l'. induction l as [|x l IH]; intros l'; cbn [mapM].
  - intros [= <-]. reflexivity.
  - destruct (f x) as [y|]; [|discriminate]. cbn [mbind result_bind].
    destruct (mapM f l) as [k|]; [|discriminate].
    cbn [mbind result_bind mret result_ret]. intros [= <-].
    cbn [length]. rewrite (IH k eq_refl). reflexivity.
Qed.

Lemma quantiles_length (single_point : bool) (data : list Z) (q : list Q) :
  quantiles single_point data 5 = Ok q -> length q = 4%nat.
Proof.
  unfold quantiles. cbv zeta.
  destruct (Z.ltb_spec 5 1); [lia|].
  destruct (py_len (sorted data) <? 2).
  - destruct (single_point && (py_len (sorted data) =? 1)) eqn:E; [|discriminate].
    apply andb_true_iff in E as [_ E]. apply Z.eqb_eq in E.
    intros [= <-]. unfold py_len in E.
    destruct (sorted data) as [|x [|y l]]; cbn [length] in E; try lia.
    reflexivity.
  - intros Hq. apply mapM_result_length in Hq. rewrite Hq. reflexivity.
Qed.

(** What one record of the result satisfies with respect to its data. *)
Definition stats_in_order (data : list Z) (st : link_stats) : Prop :=
  In (st_min st) data /\ In (st_max st) data /\
  (forall y, In y data -> st_min st <= y <= st_max st) /\
  (inject_Z (st_min st) <= st_average st)%Q /\
  (st_average st <= inject_Z (st_max st))%Q /\
  (inject_Z (st_min st) <= st_median st)%Q /\
  (st_median st <= inject_Z (st_max st))%Q /\
  length (st_quintiles st) = 4%nat.

Lemma describe_in_order (single_point : bool) (data : list Z) (st : link_stats) :
  describe single_point data = Ok st -> stats_in_order data st.
Proof.
  intros H. destruct (describe_fields _ _ _ H) as (Ha & Hm & Hhi & Hlo & Hq).
  destruct (py_max_spec _ _ Hhi) as [Hhi1 Hhi2].
  destruct (py_min_spec _ _ Hlo) as [Hlo1 Hlo2].
  assert (forall y, In y data -> st_min st <= y <= st_max st) as Hb
    by (intros y Hy; split; [apply Hlo2, Hy|apply Hhi2, Hy]).
  destruct (mean_bounds _ _ _ _ Hb Ha) as [Ha1 Ha2].
  destruct (median_bounds _ _ _ _ Hb Hm) as [Hm1 Hm2].
  unfold stats_in_order.
  split; [exact Hlo1|]. split; [exact Hhi1|]. split; [exact Hb|].
  split; [exact Ha1|]. split; [exact Ha2|]. split; [exact Hm1|].
  split; [exact Hm2|]. exact (quantiles_length _ _ _ Hq).
Qed.

(** X12.  When the statistics succeed, in each of the two records the
    minimum and the maximum are values of the degree list and bound all of
    them, the average and the median lie between the minimum and the
    maximum, and there are exactly four quintile cut points. *)
Theorem X12_statistics_are_in_order
        (single_point : bool) (graph : gmap Z (list Z)) (pages : gset Z)
        (outgoing incoming : link_stats) :
  compute_statistics single_point graph pages = Ok (outgoing, incoming) ->
  stats_in_order (outgoing_counts graph pages) outgoing /\
  stats_in_order (incoming_values graph pages) incoming.
Proof.
  unfold compute_statistics. intros H.
  destruct (describe single_point (outgoing_counts graph pages)) as [o|] eqn:Eo;
    [|discriminate].
  cbn [mbind result_bind] in H.
  destruct (describe single_point (incoming_values graph pages)) as [i|] eqn:Ei;
    [|discriminate].
  cbn [mbind result_bind mret result_ret] in H. injection H as <- <-.
  split; eapply describe_in_order; eassumption.
Qed.

Lemma X12_statistics_witness :
  exists outgoing incoming,
    compute_statistics false test_graph test_pages = Ok (outgoing, incoming) /\
    stats_in_order (outgoing_counts test_graph test_pages) outgoing /\
    stats_in_order (incoming_values test_graph test_pages) incoming.
Proof.
  eexists _, _. split; [vm_compute; reflexivity|].
  apply (X12_statistics_are_in_order false test_graph test_pages).
  vm_compute. reflexivity.
Defined.

Lemma Qsum_over_inject_Z {A} (f : A -> Z) (l : list A) :
  (Qsum_over (fun x => inject_Z (f x)) l == inject_Z (Zsum (map f l)))%Q.
Proof.
  induction l as [|x l IH]; [reflexivity|].
  rewrite Qsum_over_cons, IH. cbn [map]. rewrite Zsum_cons, inject_Z_plus.
  reflexivity.
Qed.

(** Every edge is counted once as outgoing and at most once as incoming. *)
Lemma degree_sums (graph : gmap Z (list Z)) (pages : gset Z) :
  Zsum (incoming_values graph pages) <= Zsum (outgoing_counts graph pages) /\
  (closed_graph graph pages ->
   Zsum (incoming_values graph pages) = Zsum (outgoing_counts graph pages)).
Proof.
  rewrite incoming_values_in_links. unfold outgoing_counts.
  fold (out_degree graph).
  assert (forall p, (Qsum_over (fun _ : Z => 1) (in_links graph pages p)
                     == inject_Z (py_len (in_links graph pages p)))%Q) as E1
    by (intros p; rewrite Qsum_over_const; ring).
  assert (Qsum_over (fun q => inject_Z (out_degree graph q) * 1) (elements pages)
          == inject_Z (Zsum (map (out_degree graph) (elements pages))))%Q as E2.
  { rewrite <- Qsum_over_inject_Z. apply Qsum_over_ext. intros; ring. }
  assert (Qsum_over (fun p => Qsum_over (fun _ : Z => 1) (in_links graph pages p))
                    (elements pages)
          == inject_Z (Zsum (map (fun p => py_len (in_links graph pages p))
                                 (elements pages))))%Q as E3.
  { rewrite <- Qsum_over_inject_Z. apply Qsum_over_ext. intros p _. apply E1. }
  split.
  - pose proof (sum_in_links_le graph pages (fun _ => 1%Q)) as Hle.
    rewrite E2, E3, <- Zle_Qle in Hle. apply Hle. intros; discriminate.
  - intros Hcl. pose proof (sum_in_links graph pages (fun _ => 1%Q) Hcl) as Heq.
    rewrite E2, E3, inject_Z_injective in Heq. exact Heq.
Qed.

(** X13.  When the statistics succeed, the average in-degree is at most
    the average out-degree (the sum of the in-degrees is at most the sum of
    the out-degrees), and they are equal when every edge target lies in
    PageSet. *)
Theorem X13_average_in_degree_at_most_out_degree
        (single_point : bool) (graph : gmap Z (list Z)) (pages : gset Z)
        (outgoing incoming : link_stats) :
  compute_statistics single_point graph pages = Ok (outgoing, incoming) ->
  Zsum (incoming_values graph pages) <= Zsum (outgoing_counts graph pages) /\
  (st_average incoming <= st_average outgoing)%Q /\
  (closed_graph graph pages ->
   (st_average incoming == st_average outgoing)%Q).
Proof.
  unfold compute_statistics. intros H.
  apply bind_ok_inv in H as (o & Eo & H).
  apply bind_ok_inv in H as (i & Ei & H). injection H as <- <-.
  destruct (describe_fields _ _ _ Eo) as (Ho & _).
  destruct (describe_fields _ _ _ Ei) as (Hi & _).
  destruct (degree_sums graph pages) as [Hle Heq].
  split; [exact Hle|].
  unfold mean in Ho, Hi. cbv zeta in Ho, Hi.
  assert (py_len (incoming_values graph pages)
          = py_len (outgoing_counts graph pages)) as Elen
    by (unfold py_len, incoming_values, outgoing_counts;
        rewrite !length_map; reflexivity).
  rewrite Elen in Hi.
  destruct (Z.ltb_spec (py_len (outgoing_counts graph pages)) 1) as [|Hn];
    [discriminate|].
  injection Ho as <-. injection Hi as <-.
  assert (0 < inject_Z (py_len (outgoing_counts graph pages)))%Q as Hpos
    by (change 0%Q with (inject_Z 0); rewrite <- Zlt_Qlt; lia).
  split.
  - unfold Qdiv. apply Qmult_le_compat_r.
    + rewrite <- Zle_Qle. exact Hle.
    + apply Qlt_le_weak, Qinv_lt_0_compat, Hpos.
  - intros Hcl. rewrite (Heq Hcl). reflexivity.
Qed.

Lemma X13_average_degree_witness :
  exists outgoing incoming,
    compute_statistics false leaky_graph multi_pages = Ok (outgoing, incoming) /\
    Zsum (incoming_values leaky_graph multi_pages)
    <= Zsum (outgoing_counts leaky_graph multi_pages) /\
    (st_average incoming <= st_average outgoing)%Q.
Proof.
  eexists _, _. split; [vm_compute; reflexivity|].
  pose proof (X13_average_in_degree_at_most_out_degree false leaky_graph
                multi_pages) as H.
  edestruct H as (H1 & H2 & _); [vm_compute; reflexivity|].
  split; [exact H1|exact H2].
Defined.

(** ** main: ranking and the order of the analysis *)

(** Insertion in a list ordered by decreasing rank, before the entries
    that are not larger. *)
Fixpoint insert_by_rank (x : Z * Q) (l : list (Z * Q)) : list (Z * Q) :=
  match l with
  | [] => [x]
  | y :: l' => if Qle_bool (snd y) (snd x) then x :: l
               else y :: insert_by_rank x l'
  end.

(** [sorted(pagerank.items(), key=lambda x: x[1], reverse=True)]: by
    decreasing rank, entries of equal rank in their original order. *)
Definition sorted_by_rank (items : list (Z * Q)) : list (Z * Q) :=
  fold_right insert_by_rank [] items.

(** [top_5 = sorted(...)[:5]] *)
Definition top_5 (pagerank : list (Z * Q)) : list (Z * Q) :=
  firstn 5 (sorted_by_rank pagerank).

(** [main] from the downloaded files on: the graph, the statistics, the
    ranks with the iteration count, and the five best pages.  Printing and
    timing are left out. *)
Definition main (single_point : bool) (files_content : list (string * string))
  : option (result (link_stats * link_stats * list (Z * Q) * Z * list (Z * Q))) :=
  match build_graph files_content with
  | Raise e => Some (Raise e)
  | Ok (graph, incoming, pages) =>
      match compute_statistics single_point graph pages with
      | Raise e => Some (Raise e)
      | Ok stats =>
          match compute_pagerank graph pages default_damping
                                 default_tolerance 100 with
          | None => None
          | Some (Raise e) => Some (Raise e)
          | Some (Ok (pagerank, iterations)) =>
              Some (Ok (stats, pagerank, iterations, top_5 pagerank))
          end
      end
  end.

(** [y] does not rank above [x]. *)
Definition not_above (x y : Z * Q) : Prop := (snd y <= snd x)%Q.

Lemma insert_by_rank_perm (x : Z * Q) (l : list (Z * Q)) :
  insert_by_rank x l ≡ₚ x :: l.
Proof.
  induction l as [|y l IH]; [reflexivity|].
  cbn [insert_by_rank]. destruct (Qle_bool (snd y) (snd x)); [reflexivity|].
  rewrite IH. apply perm_swap.
Qed.

Lemma sorted_by_rank_perm (items : list (Z * Q)) : sorted_by_rank items ≡ₚ items.
Proof.
  induction items as [|x items IH]; [reflexivity|].
  cbn [sorted_by_rank fold_right]. fold (sorted_by_rank items).
  rewrite insert_by_rank_perm, IH. reflexivity.
Qed.

Lemma insert_by_rank_sorted (x : Z * Q) (l : list (Z * Q)) :
  StronglySorted not_above l -> StronglySorted not_above (insert_by_rank x l).
Proof.
  induction l as [|y l IH]; intros Hs; cbn [insert_by_rank].
  - constructor; constructor.
  - apply StronglySorted_inv in Hs as [Hl Hy].
    destruct (Qle_bool (snd y) (snd x)) eqn:E.
    + apply Qle_bool_iff in E. constructor.
      * constructor; assumption.
      * constructor; [exact E|].
        rewrite Forall_forall in Hy |- *. intros z Hz.
        unfold not_above in *. apply Qle_trans with (snd y); [apply Hy, Hz|exact E].
    + constructor; [apply IH, Hl|].
      rewrite Forall_forall in Hy |- *. intros z Hz.
      rewrite insert_by_rank_perm in Hz. apply elem_of_cons in Hz as [->|Hz].
      * unfold not_above. apply Qlt_le_weak, Qnot_le_lt. intros Hle.
        apply Qle_bool_iff in Hle. congruence.
      * apply Hy, Hz.
Qed.

Lemma sorted_by_rank_sorted (items : list (Z * Q)) :
  StronglySorted not_above (sorted_by_rank items).
Proof.
  induction items as [|x items IH]; [constructor|].
  cbn [sorted_by_rank fold_right]. apply insert_by_rank_sorted, IH.
Qed.

Lemma StronglySorted_app_inv {A} (R : A -> A -> Prop) (l1 l2 : list A) :
  StronglySorted R (l1 ++ l2) ->
  StronglySorted R l1 /\ forall x y, In x l1 -> In y l2 -> R x y.
Proof.
  induction l1 as [|a l1 IH]; cbn [app]; intros Hs.
  - split; [constructor|]. intros x y [].
  - apply StronglySorted_inv in Hs as [Hs Ha]. destruct (IH Hs) as [IH1 IH2].
    rewrite List.Forall_forall in Ha. split.
    + constructor; [exact IH1|]. rewrite List.Forall_forall. intros z Hz.
      apply Ha, in_or_app. left. exact Hz.
    + intros x y [<-|Hx] Hy; [|apply IH2; assumption].
      apply Ha, in_or_app. right. exact Hy.
Qed.


(** X14.  The five pages printed by [main] are the first entries of the
    rank dictionary ordered by decreasing rank: there are min(5, n) of
    them, they are entries of the dictionary in non-increasing rank order,
    and no entry left out has a larger rank than one of them. *)
Theorem X14_top_5_is_a_top (pagerank : list (Z * Q)) :
  length (top_5 pagerank) = Nat.min 5 (length pagerank) /\
  StronglySorted not_above (top_5 pagerank) /\
  exists others,
    pagerank ≡ₚ top_5 pagerank ++ others /\
    forall x y, In x (top_5 pagerank) -> In y others -> (snd y <= snd x)%Q.
Proof.
  unfold top_5.
  pose proof (sorted_by_rank_perm pagerank) as Hperm.
  pose proof (sorted_by_rank_sorted pagerank) as Hs.
  rewrite <- (firstn_skipn 5 (sorted_by_rank pagerank)) in Hs.
  apply StronglySorted_app_inv in Hs as [Hs1 Hs2].
  split; [|split; [exact Hs1|]].
  - rewrite length_firstn, (Permutation_length Hperm). reflexivity.
  - exists (skipn 5 (sorted_by_rank pagerank)). split; [|exact Hs2].
    rewrite firstn_skipn. symmetry. exact Hperm.
Qed.






Local Open Scope string_scope.

(** Three documents whose links stay in the corpus: 0 -> 1, 2; 1 -> 2;
    2 -> 0. *)
Definition closed_files : list (string * string) :=
  [("0.html", anchor_open ++ "1" ++ anchor_close ++ anchor_open ++ "2" ++ anchor_close);
   ("1.html", anchor_open ++ "2" ++ anchor_close);
   ("2.html", anchor_open ++ "0" ++ anchor_close)].

Local Close Scope string_scope.

(** [main] on these documents: one iteration, page 2 first. *)
Example main_on_closed_files :
  exists stats pagerank top,
    main false closed_files = Some (Ok (stats, pagerank, 1, top)) /\
    map fst top = [2; 0; 1].
Proof.
  eexists _, _, _. split; [vm_compute; reflexivity|].
  vm_compute. reflexivity.
Qed.

(** ** download_file: the retry loop

    The storage client is outside the program: [download] gives, for the
    attempt number (from 0), what [blob.download_as_text] does at that
    attempt: it returns the text or raises an exception, named by its
    message.  The loop is modelled with the pauses it requests from
    [time.sleep], in seconds. *)

Inductive attempt : Type :=
  | Downloaded (content : string)
  | Failed (error : string).

(** How a call ends: [return blob_name, content], an exception that
    leaves the function, or the end of the [for] loop (which returns
    [None]). *)
Inductive download_end : Type :=
  | Returned (blob_name content : string)
  | Raised (error : string)
  | FellThrough.

Section Download.
Variable download : Z -> attempt.
Variable blob_name : string.

(** [max_retries = 3] *)
Definition max_retries : Z := 3.

(** [for attempt in ...], with the pauses requested so far. *)
Fixpoint download_attempts (attempts : list Z) (slept : list Z)
  : download_end * list Z :=
  match attempts with
  | [] => (FellThrough, slept)
  | attempt :: rest =>
      match download attempt with
      | Downloaded content => (Returned blob_name content, slept)
      | Failed e =>
          if attempt <? max_retries - 1
          then download_attempts rest (slept ++ [2 ^ attempt])
          else (Raised e, slept)
      end
  end.

(** [download_file(bucket, blob_name)] *)
Definition download_file : download_end * list Z :=
  download_attempts (py_range 0 max_retries) [].

(** The first attempt that succeeds among [attempts], if any. *)
Fixpoint first_success (attempts : list Z) : option (Z * string) :=
  match attempts with
  | [] => None
  | attempt :: rest =>
      match download attempt with
      | Downloaded content => Some (attempt, content)
      | Failed _ => first_success rest
      end
  end.

(** X16.  [download_file] calls the storage at most three times.  If one
    of the three attempts succeeds it returns the blob name with the text of
    the first successful attempt, after pausing 1 second, then 2 seconds,
    once per failed attempt before it; if all three fail it raises the
    exception of the third attempt, having paused 1 and 2 seconds (there is
    no pause after the last failure).  It never returns None. *)
Theorem X16_download_file_retries :
  match first_success [0; 1; 2] with
  | Some (k, content) =>
      download_file = (Returned blob_name content, map (fun j => 2 ^ j) (py_range 0 k))
  | None =>
      exists e, download 2 = Failed e /\ download_file = (Raised e, [1; 2])
  end.
Proof.
  unfold download_file.
  change (py_range 0 max_retries) with [0; 1; 2].
  cbn [first_success download_attempts].
  destruct (download 0) as [c0|e0]; [reflexivity|].
  destruct (download 1) as [c1|e1]; [reflexivity|].
  destruct (download 2) as [c2|e2]; [reflexivity|].
  exists e2. split; reflexivity.
Qed.

End Download.

(** ** The fallback file names

    When the listing of the bucket fails, [download_files_parallel] takes
    the names [f"{i}.html"] for [i] in [range(20000)]. *)

Local Open Scope string_scope.

Definition digit_char (d : Z) : ascii := ascii_of_nat (48 + Z.to_nat d).

(** The decimal digits of [i >= 0] put in front of [acc]; [fuel] bounds the
    number of digits. *)
Fixpoint digits_from (fuel : nat) (i : Z) (acc : string) : string :=
  match fuel with
  | O => acc
  | S fuel' =>
      let acc' := String (digit_char (i mod 10)) acc in
      if (i <? 10)%Z then acc' else digits_from fuel' (i / 10) acc'
  end.

(** [str(i)] on an integer. *)
Definition py_str (i : Z) : string :=
  if (i <? 0)%Z
  then String "-" (digits_from (S (Z.to_nat (- i))) (- i) EmptyString)
  else digits_from (S (Z.to_nat i)) i EmptyString.

(** [[f"{i}.html" for i in range(20000)]] *)
Definition fallback_names : list string :=
  map (fun i => py_str i ++ ".html") (py_range 0 20000).

Lemma digit_char_spec (d : Z) :
  (0 <= d < 10)%Z ->
  is_digit (digit_char d) = true /\ digit_value (digit_char d) = d.
Proof.
  intros H.
  assert (d = 0 \/ d = 1 \/ d = 2 \/ d = 3 \/ d = 4 \/ d = 5 \/ d = 6 \/ d = 7
          \/ d = 8 \/ d = 9)%Z as Hd by lia.
  repeat (destruct Hd as [->|Hd]; [split; reflexivity|]).
  subst d. split; reflexivity.
Qed.

Lemma digits_from_parse (fuel : nat) (i : Z) (acc : string) (b : bool) :
  (0 <= i)%Z -> (Z.to_nat i < fuel)%nat ->
  parse_digits 0 b (digits_from fuel i acc) = parse_digits i true acc.
Proof.
  revert i acc b. induction fuel as [|fuel IH]; intros i acc b Hi Hfuel; [lia|].
  cbn [digits_from].
  destruct (digit_char_spec (i mod 10)) as [Hd Hv];
    [apply Z.mod_pos_bound; lia|].
  destruct (Z.ltb_spec i 10) as [Hlt|Hge].
  - cbn [parse_digits]. rewrite Hd, Hv, Z.mod_small by lia. reflexivity.
  - rewrite IH.
    + cbn [parse_digits]. rewrite Hd, Hv. f_equal.
      rewrite (Z.div_mod i 10) at 3 by lia. reflexivity.
    + apply Z.div_pos; lia.
    + assert (i / 10 < i)%Z by (apply Z.div_lt; lia). lia.
Qed.

Lemma digits_from_all_digits (fuel : nat) (i : Z) (acc : string) :
  (0 <= i)%Z -> all_digits acc = true ->
  all_digits (digits_from fuel i acc) = true.
Proof.
  revert i acc. induction fuel as [|fuel IH]; intros i acc Hi Hacc; [exact Hacc|].
  cbn [digits_from].
  destruct (digit_char_spec (i mod 10)) as [Hd _];
    [apply Z.mod_pos_bound; lia|].
  assert (all_digits (String (digit_char (i mod 10)) acc) = true) as Hacc'
    by (cbn [all_digits]; rewrite Hd, Hacc; reflexivity).
  destruct (i <? 10)%Z; [exact Hacc'|].
  apply IH; [apply Z.div_pos; lia|exact Hacc'].
Qed.

Lemma digits_from_nonempty (fuel : nat) (i : Z) (acc : string) :
  acc <> EmptyString -> digits_from fuel i acc <> EmptyString.
Proof.
  revert i acc. induction fuel as [|fuel IH]; intros i acc Hacc; [exact Hacc|].
  cbn [digits_from]. destruct (i <? 10)%Z; [discriminate|].
  apply IH. discriminate.
Qed.

Lemma py_str_digits (i : Z) :
  (0 <= i)%Z ->
  all_digits (py_str i) = true /\ py_str i <> EmptyString /\
  parse_digits 0 false (py_str i) = Some i.
Proof.
  intros Hi. unfold py_str. destruct (Z.ltb_spec i 0); [lia|].
  split; [apply digits_from_all_digits; [exact Hi|reflexivity]|]. split.
  - cbn [digits_from]. destruct (i <? 10)%Z; [discriminate|].
    apply digits_from_nonempty. discriminate.
  - rewrite digits_from_parse; [reflexivity|exact Hi|lia].
Qed.

(** [int] reads back what [str] wrote. *)
Lemma py_int_py_str (i : Z) : (0 <= i)%Z -> py_int (py_str i) = Ok i.
Proof.
  intros Hi. destruct (py_str_digits i Hi) as (Hd & Hne & Hv).
  rewrite py_int_unfold, (lstrip_digits _ Hd), (rstrip_digits _ Hd).
  destruct (py_str i) as [|c s] eqn:E; [congruence|].
  pose proof Hd as Hd'. cbn [all_digits] in Hd'.
  apply andb_true_iff in Hd' as [Hc _].
  rewrite (split_sign_digit c s Hc). cbn [fst snd]. rewrite Hv.
  f_equal. lia.
Qed.

Lemma page_name_py_str (i : Z) :
  (0 <= i)%Z ->
  is_page_name (py_str i ++ ".html") = true /\
  page_number (py_str i ++ ".html") = Ok i.
Proof.
  intros Hi. destruct (py_str_digits i Hi) as (Hd & Hne & _). split.
  - unfold is_page_name.
    rewrite (span_digits_app (py_str i) ".html" Hd) by reflexivity.
    apply is_empty_false in Hne. rewrite Hne. reflexivity.
  - unfold page_number. rewrite (remove_html_digits _ Hd).
    apply py_int_py_str, Hi.
Qed.

(** X17.  Every fallback name [f"{i}.html"] has the form <digits>.html
    and the builder reads the number [i] back from it; so the fallback
    names stand for the pages 0, 1, ..., 19999, in this order. *)
Theorem X17_fallback_names_round_trip :
  (forall i, (0 <= i)%Z ->
             is_page_name (py_str i ++ ".html") = true /\
             page_number (py_str i ++ ".html") = Ok i) /\
  map page_number fallback_names = map Ok (py_range 0 20000).
Proof.
  split; [exact page_name_py_str|].
  unfold fallback_names. rewrite map_map. apply map_ext_in.
  intros i Hi. apply page_name_py_str.
  unfold py_range in Hi. apply in_map_iff in Hi as (k & <- & _). lia.
Qed.

Lemma X17_fallback_names_witness :
  is_page_name (py_str 19999 ++ ".html") = true /\
  page_number (py_str 19999 ++ ".html") = Ok 19999%Z.
Proof.
  apply (proj1 X17_fallback_names_round_trip 19999%Z). lia.
Defined.

Example py_str_samples :
  py_str 0 = "0" /\ py_str 19999 = "19999" /\ py_str (-40) = "-40".
Proof. repeat split; vm_compute; reflexivity. Qed.

Local Close Scope string_scope.

(** ** Links and file names denote pages the same way *)

Local Open Scope string_scope.



Local Close Scope string_scope.

(** ** The rank mass lost to targets outside the corpus *)

Lemma indicator_sum_out (t : Z) (P : list Z) :
  t ∉ P -> (Qsum_over (fun p => if t =? p then 1 else 0) P == 0)%Q.
Proof.
  intros Hnin. apply Qsum_over_zero.
  intros p Hp. destruct (Z.eqb_spec t p) as [->|]; [|reflexivity].
  exfalso. apply Hnin, list_elem_of_In, Hp.
Qed.

Lemma count_in_corpus (l P : list Z) :
  NoDup P ->
  (Qsum_over (fun p => inject_Z (py_len (List.filter (fun t => t =? p) l))) P
   == inject_Z (py_len (List.filter (fun t => bool_decide (t ∈ P)) l)))%Q.
Proof.
  intros Hnd. induction l as [|t l IH].
  - apply Qsum_over_zero. intros; reflexivity.
  - rewrite (Qsum_over_ext _
      (fun p => (if t =? p then 1 else 0)
                + inject_Z (py_len (List.filter (fun t => t =? p) l)))%Q).
    + rewrite Qsum_over_plus, IH. cbn [List.filter].
      destruct (decide (t ∈ P)) as [Hin|Hnin].
      * rewrite (indicator_sum_in t P Hnd Hin), bool_decide_eq_true_2 by exact Hin.
        unfold py_len. cbn [length].
        rewrite Nat2Z.inj_succ, <- Z.add_1_r, inject_Z_plus. ring.
      * rewrite (indicator_sum_out t P Hnin), bool_decide_eq_false_2 by exact Hnin.
        ring.
    + intros p _. cbn [List.filter]. destruct (t =? p).
      * unfold py_len. cbn [length].
        rewrite Nat2Z.inj_succ, <- Z.add_1_r, inject_Z_plus. ring.
      * ring.
Qed.

Section LostMass.
Variable graph : gmap Z (list Z).
Variable pages : gset Z.
Variable damping : Q.

(** Number of edges of [q] that end in [pages]. *)
Definition in_corpus_degree (q : Z) : Z :=
  py_len (List.filter (fun t => bool_decide (t ∈ elements pages))
                      (graph_get graph q)).

(** What the edges towards targets outside [pages] carry. *)
Definition lost_mass (pagerank : list (Z * Q)) : Q :=
  Qsum_over (fun q => inject_Z (out_degree graph q - in_corpus_degree q)
                      * contribution graph pagerank q)%Q
            (elements pages).

Lemma sum_in_links_exact (c : Z -> Q) :
  (Qsum_over (fun p => Qsum_over c (in_links graph pages p)) (elements pages)
   == Qsum_over (fun q => inject_Z (in_corpus_degree q) * c q) (elements pages))%Q.
Proof.
  unfold in_links.
  rewrite (Qsum_over_ext _
    (fun p => Qsum_over
       (fun q => inject_Z (py_len (List.filter (fun t => t =? p)
                                               (graph_get graph q))) * c q)
       (elements pages))%Q).
  - rewrite Qsum_over_swap. apply Qsum_over_ext. intros q Hq.
    rewrite (Qsum_over_ext _
      (fun p => c q * inject_Z (py_len (List.filter (fun t => t =? p)
                                                    (graph_get graph q))))%Q)
      by (intros; ring).
    rewrite Qsum_over_scale, count_in_corpus by apply NoDup_elements.
    unfold in_corpus_degree. ring.
  - intros p _. rewrite Qsum_over_flat_map. apply Qsum_over_ext. intros q _.
    unfold Qsum_over at 1. rewrite map_map.
    apply (Qsum_over_const (c q)).
Qed.

Lemma total_step_exact (pagerank : list (Z * Q)) :
  pages <> ∅ -> dict_keys pagerank = elements pages ->
  (total (step graph pages damping pagerank)
   == (1 - damping) + damping * (total pagerank - lost_mass pagerank))%Q.
Proof.
  intros nonempty keys. pose proof (n_pages_pos pages nonempty) as Hn.
  rewrite (total_step graph pages damping pagerank nonempty keys).
  rewrite (total_rank_of pages pagerank keys).
  unfold next_rank, lost_mass.
  rewrite !Qsum_over_plus, !Qsum_over_const, Qsum_over_scale.
  rewrite sum_in_links_exact.
  rewrite (Qsum_over_filter_split
             (fun q => out_degree graph q =? 0) (rank_of pagerank)).
  rewrite (Qsum_over_filter (fun q => negb (out_degree graph q =? 0))).
  change (Qsum_over (rank_of pagerank) (List.filter _ (elements pages)))
    with (dangling_mass graph pages pagerank).
  rewrite (Qsum_over_ext
             (fun q => if negb (out_degree graph q =? 0)
                       then rank_of pagerank q else 0)
             (fun q => inject_Z (in_corpus_degree q) * contribution graph pagerank q
                       + inject_Z (out_degree graph q - in_corpus_degree q)
                         * contribution graph pagerank q))%Q.
  - rewrite Qsum_over_plus. fold (n_pages pages).
    generalize dependent (n_pages pages). intros N HN.
    generalize (dangling_mass graph pages pagerank). intros dm.
    match goal with |- context [Qsum_over ?f ?l] =>
      generalize (Qsum_over f l) end.
    intros a.
    match goal with |- context [Qsum_over ?f ?l] =>
      generalize (Qsum_over f l) end.
    intros b. field. lra.
  - intros q _. unfold contribution.
    rewrite <- Qmult_plus_distr_l, <- inject_Z_plus.
    replace (in_corpus_degree q + (out_degree graph q - in_corpus_degree q))
      with (out_degree graph q) by lia.
    destruct (Z.eqb_spec (out_degree graph q) 0) as [->|Hne]; cbn [negb].
    + change (inject_Z 0) with 0%Q. ring.
    + field. change 0%Q with (inject_Z 0). rewrite inject_Z_injective. exact Hne.
Qed.

Lemma pagerank_after_keys (k : nat) (pagerank : list (Z * Q)) :
  pagerank_after graph pages damping k = Ok pagerank ->
  dict_keys pagerank = elements pages.
Proof.
  revert pagerank. induction k as [|k IH]; intros pr; cbn [pagerank_after].
  - rewrite initial_pagerank_always. intros [= <-]. apply uniform_keys.
  - intros H. apply bind_ok_inv in H as (prev & Hprev & H).
    apply bind_ok_inv in H as ([new c] & Hbody & H). injection H as <-.
    pose proof (iteration_body_outcome graph pages damping prev (IH prev Hprev))
      as Hout.
    rewrite Hbody in Hout. exact Hout.
Qed.

End LostMass.

(** X19.  Each iteration takes the total rank [m] of the previous vector
    to exactly (1-d) + d * (m - lost), in exact arithmetic, where [lost] is
    the rank that the previous vector sends along edges whose target is
    outside PageSet: for each page, its rank times the share of its links
    that leave the corpus. *)
Theorem X19_mass_after_an_iteration
        (graph : gmap Z (list Z)) (pages : gset Z) (damping : Q) (k : nat)
        (pagerank new_pagerank : list (Z * Q)) :
  pages <> ∅ ->
  pagerank_after graph pages damping k = Ok pagerank ->
  pagerank_after graph pages damping (S k) = Ok new_pagerank ->
  (py_sum (dict_values new_pagerank)
   == (1 - damping)
      + damping * (py_sum (dict_values pagerank)
                   - lost_mass graph pages pagerank))%Q /\
  (lost_mass graph pages pagerank
   == Qsum_over (fun q => inject_Z (out_degree graph q
                                    - in_corpus_degree graph pages q)
                          * (rank_of pagerank q / inject_Z (out_degree graph q)))
                (elements pages))%Q.
Proof.
  intros Hne Hpr Hnew. split; [|reflexivity].
  pose proof (pagerank_after_keys graph pages damping k pagerank Hpr) as Hk.
  cbn [pagerank_after] in Hnew. rewrite Hpr in Hnew. cbn [mbind result_bind] in Hnew.
  rewrite (iteration_body_step graph pages damping pagerank Hne Hk) in Hnew.
  apply bind_ok_inv in Hnew as ([new c] & Hbody & Hnew). injection Hnew as <-.
  apply bind_ok_inv in Hbody as (c' & _ & Hbody). injection Hbody as <- _.
  apply (total_step_exact graph pages damping pagerank Hne Hk).
Qed.

Lemma X19_mass_witness :
  (py_sum (dict_values (step leaky_graph multi_pages default_damping
                             (uniform multi_pages)))
   == (1 - default_damping)
      + default_damping * (py_sum (dict_values (uniform multi_pages))
                           - lost_mass leaky_graph multi_pages
                                       (uniform multi_pages)))%Q.
Proof.
  refine (proj1 (X19_mass_after_an_iteration leaky_graph multi_pages
                   default_damping 0 (uniform multi_pages)
                   (step leaky_graph multi_pages default_damping
                         (uniform multi_pages)) _ _ _)).
  - apply nonempty_by_elements. vm_compute. discriminate.
  - vm_compute. reflexivity.
  - vm_compute. reflexivity.
Defined.
